(** * URL_Short: the request handlers of [server.js]

    A shallow embedding of the Express handlers of [server.js]
    ([POST /api/shorten], [GET /api/stats/:shortCode], [GET /api/urls],
    [GET /:shortCode]) over an explicit model of their collaborators: the
    [urls] table reached through the Supabase client, the auth service,
    the random source of [nanoid] and the process environment.

    Handlers are written in a small state-and-exception monad.  Its state
    is the [world]: the table, the auth sessions, the outcomes the network
    will give to the next calls, the random bytes, the clock, and the log
    of what the handler did in program order (requests issued, responses
    sent). *)

From Stdlib Require Import String Ascii List ZArith NArith Lia Bool Sorted.
Import ListNotations.

Local Open Scope string_scope.
Local Open Scope Z_scope.

(** ** Data model *)

(** A row of the [urls] table, with the columns [server.js] names. *)
Record url_row : Type := mk_row {
  original_url : string;
  short_code : string;
  user_id : option string;
  clicks : Z;
  created_at : Z
}.

(** The Supabase client in use: the global one, or one scoped to the
    bearer token of the request. *)
Inductive client : Type :=
| GlobalClient
| ScopedClient (token : string).

(** What a client call resolves to: the [{ data, error }] object. *)
Record reply (A : Type) : Type := mk_reply {
  data : option A;
  error : option string
}.
Arguments mk_reply {A} _ _.
Arguments data {A} _.
Arguments error {A} _.

Definition succeeded {A} (a : A) : reply A := mk_reply (Some a) None.
Definition failed {A} (msg : string) : reply A := mk_reply None (Some msg).

(** Response bodies and responses of the handlers. *)
Inductive body : Type :=
| ErrorBody (msg : string)
| Shortened (shortCode shortUrl originalUrl message : string)
| StatsBody (row : url_row) (shortUrl : string)
| UrlList (items : list (url_row * string)).

Inductive response : Type :=
| RespJson (status : Z) (b : body)
| RespRedirect (location : string)
| RespEnd (status : Z).

(** The status line a response carries ([res.json] alone is a 200,
    [res.redirect] a 302). *)
Definition status_of (r : response) : Z :=
  match r with
  | RespJson s _ => s
  | RespRedirect _ => 302
  | RespEnd s => s
  end.

(** What a handler does, in program order. *)
Inductive event : Type :=
| Generate (code : string)
| GetUser (c : client)
| InsertUrl (c : client) (originalUrl shortCode : string) (userId : option string)
| SelectByCode (c : client) (shortCode : string)
| SelectByUser (c : client) (userId : string)
| RpcIncrementClicks (shortCode : string)
| UpdateClicks (shortCode : string) (newClicks : Z)
| Respond (r : response).

(** A request to the [urls] table (the [.from('urls')] calls). *)
Definition is_table_request (e : event) : bool :=
  match e with
  | InsertUrl _ _ _ _ | SelectByCode _ _ | SelectByUser _ _ | UpdateClicks _ _ => true
  | _ => false
  end.

(** Any request that leaves the process for the store or the auth service. *)
Definition is_network_request (e : event) : bool :=
  match e with
  | Generate _ | Respond _ => false
  | _ => true
  end.

(** The click-accounting requests of the redirect handler. *)
Definition is_accounting (e : event) : bool :=
  match e with
  | RpcIncrementClicks _ | UpdateClicks _ _ => true
  | _ => false
  end.

Definition is_insert (e : event) : bool :=
  match e with InsertUrl _ _ _ _ => true | _ => false end.

Definition is_generate (e : event) : bool :=
  match e with Generate _ => true | _ => false end.

Definition responses (l : list event) : list response :=
  flat_map (fun e => match e with Respond r => [r] | _ => [] end) l.

(** How the network treats a call: it goes through, it comes back with an
    [error] in the reply, or the awaited promise rejects. *)
Inductive fault : Type :=
| Healthy
| Fails (msg : string)
| Throws (msg : string).

(** ** The world *)

Record world : Type := mk_world {
  urls : list url_row;
  sessions : list (string * string);
  faults : list fault;
  entropy : list N;
  now : Z;
  log : list event
}.

Definition with_urls (t : list url_row) (w : world) : world :=
  mk_world t (sessions w) (faults w) (entropy w) (now w) (log w).
Definition with_faults (f : list fault) (w : world) : world :=
  mk_world (urls w) (sessions w) f (entropy w) (now w) (log w).
Definition with_entropy (e : list N) (w : world) : world :=
  mk_world (urls w) (sessions w) (faults w) e (now w) (log w).
Definition with_now (n : Z) (w : world) : world :=
  mk_world (urls w) (sessions w) (faults w) (entropy w) n (log w).
Definition with_log (l : list event) (w : world) : world :=
  mk_world (urls w) (sessions w) (faults w) (entropy w) (now w) l.

Definition record_event (e : event) (w : world) : world :=
  with_log (log w ++ [e]) w.

(** ** The handler monad: state, and exceptions that keep the state *)

Inductive completion (A : Type) : Type :=
| Normal (a : A)
| Thrown (e : string).
Arguments Normal {A} _.
Arguments Thrown {A} _.

Definition M (A : Type) : Type := world -> completion A * world.

Definition ret {A} (a : A) : M A := fun w => (Normal a, w).

Definition bind {A B} (m : M A) (k : A -> M B) : M B :=
  fun w =>
    match m w with
    | (Normal a, w') => k a w'
    | (Thrown e, w') => (Thrown e, w')
    end.

Definition throw {A} (e : string) : M A := fun w => (Thrown e, w).

(** [try { m } catch (err) { h err }] *)
Definition try_catch {A} (m : M A) (h : string -> M A) : M A :=
  fun w =>
    match m w with
    | (Normal a, w') => (Normal a, w')
    | (Thrown e, w') => h e w'
    end.

(** A promise nobody awaits and that has no rejection handler: its
    rejection reaches no code of the handler. *)
Definition detached {A} (m : M A) : M (option A) :=
  fun w =>
    match m w with
    | (Normal a, w') => (Normal (Some a), w')
    | (Thrown _, w') => (Normal None, w')
    end.

Declare Scope handler_scope.
Delimit Scope handler_scope with handler.
Notation "x <- m ;; k" := (bind m (fun x => k))
  (at level 61, m at next level, right associativity) : handler_scope.
Notation "m ;; k" := (bind m (fun _ => k))
  (at level 61, right associativity) : handler_scope.
Local Open Scope handler_scope.

Definition issue (e : event) : M unit :=
  fun w => (Normal tt, record_event e w).

Definition respond (r : response) : M unit := issue (Respond r).

(** The network answers a call that was issued: the next [fault] decides
    whether the store runs it ([run]), reports an error or rejects.  A call
    that does not go through leaves the store as it was. *)
Definition settle {A} (run : world -> reply A * world) : M (reply A) :=
  fun w =>
    let w1 := with_faults (tl (faults w)) w in
    match hd Healthy (faults w) with
    | Healthy => let (r, w2) := run w1 in (Normal r, w2)
    | Fails msg => (Normal (failed msg), w1)
    | Throws msg => (Thrown msg, w1)
    end.

(** [await client.call(...)]: issue, then wait for the answer. *)
Definition await {A} (e : event) (run : world -> reply A * world) : M (reply A) :=
  issue e ;; settle run.

Definition run_handler {A} (m : M A) (w : world) : world := snd (m w).

(** The events a run added to the log. *)
Definition emitted {A} (m : M A) (w : world) : list event :=
  skipn (length (log w)) (log (run_handler m w)).

(** ** The [urls] table as the handlers reach it *)

Definition has_code (code : string) (r : url_row) : bool :=
  String.eqb (short_code r) code.

Definition owned_by (uid : string) (r : url_row) : bool :=
  match user_id r with
  | Some u => String.eqb u uid
  | None => false
  end.

Definition set_clicks (n : Z) (r : url_row) : url_row :=
  mk_row (original_url r) (short_code r) (user_id r) n (created_at r).

(** [.select(..).eq('short_code', code).single()]: exactly one row, or an
    error.  The redirect handler asks for the columns [original_url] and
    [clicks] only; these are the only fields it reads from the row. *)
Definition select_single (code : string) (w : world) : reply url_row * world :=
  match filter (has_code code) (urls w) with
  | [r] => (succeeded r, w)
  | _ => (failed "PGRST116", w)
  end.

(** Modelled from the spec: the uniqueness constraint and the column
    defaults of the [urls] table, which live in the database and not in the
    sources.  [insert] fails with a unique violation if the short code is
    already taken and never overwrites; a new row starts with [clicks = 0]
    and [createdAt = now].  The clock moves on after an insert. *)
Definition insert_row (originalUrl code : string) (userId : option string)
    (w : world) : reply url_row * world :=
  if existsb (has_code code) (urls w) then (failed "23505", w)
  else
    let r := mk_row originalUrl code userId 0 (now w) in
    (succeeded r, with_now (now w + 1) (with_urls (urls w ++ [r]) w)).

(** Modelled from the spec: the stored procedure [increment_clicks], which
    lives in the database and not in the sources.  It atomically increments
    [clicks] by 1 for the given code, and reports [NotFound] for a code
    that has no record. *)
Definition increment_clicks (code : string) (w : world) : reply unit * world :=
  if existsb (has_code code) (urls w) then
    (succeeded tt,
     with_urls (map (fun r => if has_code code r then set_clicks (clicks r + 1) r else r)
                    (urls w)) w)
  else (failed "NotFound", w).

(** [.update({ clicks: n }).eq('short_code', code)] *)
Definition update_clicks_table (code : string) (n : Z) (t : list url_row) : list url_row :=
  map (fun r => if has_code code r then set_clicks n r else r) t.

Definition update_clicks (code : string) (n : Z) (w : world) : reply unit * world :=
  (mk_reply None None, with_urls (update_clicks_table code n (urls w)) w).

(** [.order('created_at', { ascending: false })], as an insertion sort. *)
Fixpoint insert_desc (r : url_row) (l : list url_row) : list url_row :=
  match l with
  | [] => [r]
  | x :: l' =>
      if created_at x <? created_at r then r :: x :: l'
      else x :: insert_desc r l'
  end.

Definition order_desc (l : list url_row) : list url_row :=
  fold_right insert_desc [] l.

(** [.eq('user_id', uid).order('created_at', { ascending: false }).limit(50)] *)
Definition page_of (uid : string) (t : list url_row) : list url_row :=
  firstn 50 (order_desc (filter (owned_by uid) t)).

(** [.select('*')] of that page. *)
Definition select_by_user (uid : string) (w : world) : reply (list url_row) * world :=
  (succeeded (page_of uid (urls w)), w).

(** The clicks stored for a code: those of its first row. *)
Definition clicks_of (code : string) (t : list url_row) : option Z :=
  option_map clicks (find (has_code code) t).

(** ** The auth service *)

Fixpoint lookup_session (token : string) (s : list (string * string)) : option string :=
  match s with
  | [] => None
  | (t, uid) :: s' => if String.eqb t token then Some uid else lookup_session token s'
  end.

(** [sb.auth.getUser()]: the user the client's bearer token belongs to.
    The global client carries no user token.  The reply's [data] is the
    user's id. *)
Definition get_user (c : client) (w : world) : reply string * world :=
  match c with
  | GlobalClient => (failed "Auth session missing!", w)
  | ScopedClient token =>
      match lookup_session token (sessions w) with
      | Some uid => (succeeded uid, w)
      | None => (failed "invalid JWT", w)
      end
  end.

(** ** The code generator *)

Definition urlAlphabet : string :=
  "useandom-26T198340PX75pxJACKVERYMINDBUSHWOLF_GQZbfghjklqvwyzrict".

(** Letters, digits, [-] and [_]. *)
Definition is_url_safe (c : ascii) : bool :=
  let n := nat_of_ascii c in
  ((65 <=? n) && (n <=? 90) || (97 <=? n) && (n <=? 122)
   || (48 <=? n) && (n <=? 57) || (n =? 45) || (n =? 95))%nat.

Definition pick (b : N) : ascii :=
  nth (N.to_nat (N.land b 63)) (list_ascii_of_string urlAlphabet) "u"%char.

(** The [size] random bytes the next call reads; a source that has run dry
    reads as zeroes. *)
Definition random_bytes (size : nat) (l : list N) : list N :=
  firstn size (l ++ repeat 0%N size).

Definition code_of_bytes (bytes : list N) : string :=
  string_of_list_ascii (map pick bytes).

(** Modelled from the spec: the Code Generator ([nanoid], a package outside
    the sources).  [generate() -> code] produces a string of fixed length
    drawn from a URL-safe alphabet (letters, digits, [-] and [_]) from a
    random source: one symbol of the 64-symbol alphabet per random byte. *)
Definition nanoid (size : nat) : M string :=
  fun w =>
    let code := code_of_bytes (random_bytes size (entropy w)) in
    (Normal code,
     record_event (Generate code) (with_entropy (skipn size (entropy w)) w)).

(** ** Requests and configuration *)

Record request : Type := mk_request {
  header_authorization : option string;
  body_originalUrl : string;
  param_shortCode : string
}.

Record process_env : Type := mk_env {
  VERCEL_URL : option string;
  PORT_var : option string
}.

(** JavaScript truthiness of an environment variable or header: set and
    not empty. *)
Definition truthy (o : option string) : bool :=
  match o with
  | Some s => negb (String.eqb s "")
  | None => false
  end.

Definition or_else (o : option string) (d : string) : string :=
  match o with
  | Some s => if String.eqb s "" then d else s
  | None => d
  end.

(** [String.prototype.replace] with a string pattern: the first match only. *)
Fixpoint replace_first (pat rep s : string) : string :=
  if prefix pat s then rep ++ substring (String.length pat) (String.length s - String.length pat) s
  else
    match s with
    | EmptyString => EmptyString
    | String c s' => String c (replace_first pat rep s')
    end.

(** [getSupabase(req)] *)
Definition getSupabase (req : request) : client :=
  if truthy (header_authorization req) then
    ScopedClient (replace_first "Bearer " "" (or_else (header_authorization req) ""))
  else GlobalClient.

(** ** The handlers *)

Section Handlers.

(** The process environment, and [validUrl.isUri] (a package outside the
    sources): whether it returns a URI (truthy) or [undefined]. *)
Variable env : process_env.
Variable isUri : string -> bool.

(** [const PORT = process.env.PORT || 3000] *)
Definition PORT : string := or_else (PORT_var env) "3000".

Definition baseUrl : string :=
  if truthy (VERCEL_URL env) then "https://" ++ or_else (VERCEL_URL env) ""
  else "http://localhost:" ++ PORT.

(** [app.post('/api/shorten', ...)] *)
Definition shorten (req : request) : M unit :=
  let originalUrl := body_originalUrl req in
  let sb := getSupabase req in
  if negb (isUri originalUrl) then
    respond (RespJson 400 (ErrorBody "Invalid URL format"))
  else
    try_catch
      (shortCode <- nanoid 6 ;;
       userId <- (if truthy (header_authorization req) then
                    r <- await (GetUser sb) (get_user sb) ;;
                    ret (data r)
                  else ret None) ;;
       r <- await (InsertUrl sb originalUrl shortCode userId)
                  (insert_row originalUrl shortCode userId) ;;
       match error r with
       | Some e => throw e
       | None =>
           respond (RespJson 200
             (Shortened shortCode (baseUrl ++ "/" ++ shortCode) originalUrl
                        "URL shortened successfully"))
       end)
      (fun _ =>
         respond (RespJson 500
           (ErrorBody "Failed to shorten URL. Database connection may be missing."))).

(** [app.get('/api/stats/:shortCode', ...)] *)
Definition stats (req : request) : M unit :=
  let shortCode := param_shortCode req in
  let sb := getSupabase req in
  try_catch
    (r <- await (SelectByCode sb shortCode) (select_single shortCode) ;;
     match error r, data r with
     | None, Some d =>
         respond (RespJson 200 (StatsBody d (baseUrl ++ "/" ++ short_code d)))
     | _, _ => respond (RespJson 404 (ErrorBody "URL not found"))
     end)
    (fun _ => respond (RespJson 500 (ErrorBody "Failed to fetch statistics"))).

(** [app.get('/api/urls', ...)]; the [getUser] call is outside the [try]. *)
Definition list_urls (req : request) : M unit :=
  let sb := getSupabase req in
  a <- await (GetUser sb) (get_user sb) ;;
  match data a, error a with
  | Some uid, None =>
      try_catch
        (r <- await (SelectByUser sb uid) (select_by_user uid) ;;
         match error r, data r with
         | Some e, _ => throw e
         | None, Some rows =>
             respond (RespJson 200
               (UrlList (map (fun u => (u, baseUrl ++ "/" ++ short_code u)) rows)))
         | None, None => throw "TypeError"
         end)
        (fun _ => respond (RespJson 500 (ErrorBody "Server error")))
  | _, _ => respond (RespJson 200 (UrlList []))
  end.

(** [app.get('/:shortCode', ...)] up to the end of the handler's body:
    the lookup, the response, and the [increment_clicks] call it issues
    without awaiting it.  The result is the click-accounting job left in
    flight: the code and [data.clicks] as read by the lookup. *)
Definition redirect_handler (req : request) : M (option (string * Z)) :=
  let shortCode := param_shortCode req in
  if String.eqb shortCode "favicon.ico" then
    respond (RespEnd 404) ;; ret None
  else
    try_catch
      (r <- await (SelectByCode GlobalClient shortCode) (select_single shortCode) ;;
       match error r, data r with
       | None, Some d =>
           respond (RespRedirect (original_url d)) ;;
           issue (RpcIncrementClicks shortCode) ;;
           ret (Some (shortCode, clicks d))
       | _, _ => respond (RespRedirect "/?error=not_found") ;; ret None
       end)
      (fun _ => respond (RespRedirect "/?error=server_error") ;; ret None).

(** The [.then(({ error }) => ...)] callback of the [increment_clicks]
    call: when the call has settled with an error, the direct update is
    issued.  The result tells whether it was. *)
Definition rpc_settled (shortCode : string) (dataClicks : Z) : M bool :=
  r <- settle (increment_clicks shortCode) ;;
  match error r with
  | Some _ => issue (UpdateClicks shortCode (dataClicks + 1)) ;; ret true
  | None => ret false
  end.

(** The [.then(() => { })] callback of the direct update. *)
Definition update_settled (shortCode : string) (dataClicks : Z) : M unit :=
  _ <- settle (update_clicks shortCode (dataClicks + 1)) ;;
  ret tt.

(** Click accounting after the handler's body has returned. *)
Definition click_accounting (shortCode : string) (dataClicks : Z) : M unit :=
  fallback <- detached (rpc_settled shortCode dataClicks) ;;
  match fallback with
  | Some true => _ <- detached (update_settled shortCode dataClicks) ;; ret tt
  | _ => ret tt
  end.

(** A redirect request served with nothing else in between. *)
Definition redirect (req : request) : M unit :=
  job <- redirect_handler req ;;
  match job with
  | Some (shortCode, dataClicks) => click_accounting shortCode dataClicks
  | None => ret tt
  end.

(** ** Requests in flight *)

Inductive operation : Type :=
| OpShorten (req : request)
| OpStats (req : request)
| OpListUrls (req : request)
| OpRedirect (req : request).

(** An operation served with nothing else in between. *)
Definition run_operation (op : operation) : M unit :=
  match op with
  | OpShorten req => shorten req
  | OpStats req => stats req
  | OpListUrls req => list_urls req
  | OpRedirect req => redirect req
  end.

(** One operation after the other; an exception that escapes a handler
    ends that request only. *)
Fixpoint run_operations (ops : list operation) : M unit :=
  match ops with
  | [] => ret tt
  | op :: ops' => _ <- detached (run_operation op) ;; run_operations ops'
  end.

(** What is left to do for a request: the handler has yet to run, or its
    click accounting waits for the [increment_clicks] call or for the
    direct update to settle. *)
Inductive task : Type :=
| Incoming (op : operation)
| AwaitingRpc (shortCode : string) (dataClicks : Z)
| AwaitingUpdate (shortCode : string) (dataClicks : Z).

(** The next step of a task, and what is left of it afterwards. *)
Definition step_task (t : task) : M (option task) :=
  match t with
  | Incoming (OpRedirect req) =>
      job <- redirect_handler req ;;
      ret (option_map (fun j => AwaitingRpc (fst j) (snd j)) job)
  | Incoming op => run_operation op ;; ret None
  | AwaitingRpc c k =>
      fallback <- rpc_settled c k ;;
      ret (if fallback : bool then Some (AwaitingUpdate c k) else None)
  | AwaitingUpdate c k => update_settled c k ;; ret None
  end.

(** The runtime interleaves requests: [schedule] names, step by step, the
    slot of the pool that moves next.  A slot that has finished (or does
    not exist) does nothing. *)
Fixpoint set_slot (i : nat) (v : option task) (pool : list (option task))
  : list (option task) :=
  match pool, i with
  | [], _ => []
  | _ :: p, O => v :: p
  | x :: p, S i' => x :: set_slot i' v p
  end.

Definition step_pool (i : nat) (pool : list (option task)) (w : world)
  : list (option task) * world :=
  match nth i pool None with
  | Some t =>
      match detached (step_task t) w with
      | (Normal (Some next), w') => (set_slot i next pool, w')
      | (_, w') => (set_slot i None pool, w')
      end
  | None => (pool, w)
  end.

Fixpoint run_schedule (schedule : list nat) (pool : list (option task)) (w : world)
  : list (option task) * world :=
  match schedule with
  | [] => (pool, w)
  | i :: rest => let (pool', w') := step_pool i pool w in run_schedule rest pool' w'
  end.

End Handlers.

(** ** Reading a run *)

(** The outcome the network gives to the [n]-th call from now. *)
Definition fault_at (n : nat) (w : world) : fault := nth n (faults w) Healthy.

(** The user the auth service names for a client, when its answer arrives
    without a fault. *)
Definition whoami (c : client) (w : world) : option string :=
  match fault_at 0 w with
  | Healthy => data (fst (get_user c w))
  | _ => None
  end.

(** The code the generator yields next. *)
Definition next_code (w : world) : string :=
  code_of_bytes (random_bytes 6 (entropy w)).

(** Where the insert of [shorten] stands among the network calls of the
    request: after the [getUser] call if the request carries a bearer
    credential, first otherwise. *)
Definition insert_position (req : request) : nat :=
  if truthy (header_authorization req) then 1%nat else 0%nat.

(** Whether [shorten] gets as far as its insert: its [getUser] call, if
    any, does not reject. *)
Definition reaches_insert (req : request) (w : world) : bool :=
  if truthy (header_authorization req) then
    match fault_at 0 w with
    | Throws _ => false
    | _ => true
    end
  else true.

(** The [user_id] that [shorten] puts in the row. *)
Definition shorten_user (req : request) (w : world) : option string :=
  if truthy (header_authorization req) then whoami (getSupabase req) w else None.

(** Whether the insert of [shorten] is accepted: the call goes through and
    the generated code is not taken. *)
Definition shorten_ok (req : request) (w : world) : bool :=
  match fault_at (insert_position req) w with
  | Healthy => negb (existsb (has_code (next_code w)) (urls w))
  | _ => false
  end.

(** The response of the [catch] branch of [shorten]. *)
Definition shorten_failure : response :=
  RespJson 500 (ErrorBody "Failed to shorten URL. Database connection may be missing.").

(** The rows a response lists. *)
Definition records_of (r : response) : list url_row :=
  match r with
  | RespJson _ (UrlList items) => map fst items
  | _ => []
  end.

Definition newest_first (a b : url_row) : Prop := created_at b <= created_at a.

(** Every code that has a record keeps one, with at least as many clicks. *)
Definition clicks_never_decrease (t t' : list url_row) : Prop :=
  forall code n, clicks_of code t = Some n ->
    exists n', clicks_of code t' = Some n' /\ n <= n'.

(** A validator for the example runs: a scheme (a lower-case letter, then
    lower-case letters, digits, [+], [.] or [-]), a colon, and no blank. *)
Definition scheme_char (c : ascii) : bool :=
  let n := nat_of_ascii c in
  ((97 <=? n) && (n <=? 122) || (48 <=? n) && (n <=? 57)
   || (n =? 43) || (n =? 45) || (n =? 46))%nat.

Fixpoint after_scheme (s : string) : bool :=
  match s with
  | EmptyString => false
  | String c s' =>
      if Ascii.eqb c ":"%char then true
      else scheme_char c && after_scheme s'
  end.

Fixpoint no_blank (s : string) : bool :=
  match s with
  | EmptyString => true
  | String c s' => negb (Ascii.eqb c " "%char) && no_blank s'
  end.

Definition example_isUri (s : string) : bool :=
  match s with
  | EmptyString => false
  | String c _ =>
      let n := nat_of_ascii c in
      ((97 <=? n) && (n <=? 122))%nat && after_scheme s && no_blank s
  end.

Definition example_env : process_env := mk_env None None.

Definition example_row : url_row :=
  mk_row "https://example.com/very/long/path" "uuuuuu" None 0 5.

Definition example_world : world :=
  mk_world [example_row] [("tok", "alice")] [] [1; 2; 3; 4; 5; 6]%N 10 [].

(** The generator yields the code of [example_row] first, a fresh one next. *)
Definition collision_world : world :=
  with_entropy [0; 0; 0; 0; 0; 0; 1; 2; 3; 4; 5; 6]%N example_world.

Definition collision_request : request :=
  mk_request None "https://example.com/other" "".

(** Three redirects of the same code in flight, in a deployment where the
    [increment_clicks] procedure is missing: every call to it fails and
    every direct update goes through. *)
Definition racing_pool : list (option task) :=
  [Some (Incoming (OpRedirect (mk_request None "" "uuuuuu")));
   Some (Incoming (OpRedirect (mk_request None "" "uuuuuu")));
   Some (Incoming (OpRedirect (mk_request None "" "uuuuuu")))].

Definition racing_world : world :=
  with_faults
    [Healthy; Healthy; Fails "function not found"; Healthy;
     Healthy; Fails "function not found"; Healthy;
     Fails "function not found"; Healthy]
    example_world.

(** The first request looks the code up; the second and the third are then
    served to the end; the first one's [increment_clicks] call settles. *)
Definition racing_schedule : list nat := [0; 1; 1; 1; 2; 2; 2; 0]%nat.

(** A step that settles a direct update. *)
Definition settles_update (t : option task) : bool :=
  match t with
  | Some (AwaitingUpdate _ _) => true
  | _ => false
  end.

(** A table with rows of two owners, and a session for each. *)
Definition listing_world : world :=
  mk_world
    [mk_row "https://a.example/" "aaaaaa" (Some "alice") 3 5;
     mk_row "https://b.example/" "bbbbbb" (Some "bob") 0 6;
     mk_row "https://c.example/" "cccccc" (Some "alice") 1 9;
     mk_row "https://d.example/" "dddddd" None 7 8;
     mk_row "https://e.example/" "eeeeee" (Some "alice") 0 7]
    [("tok", "alice"); ("kot", "bob")] [] [] 10 [].

(** ** The body of a shorten request *)

(** The [originalUrl] field of the JSON body, as [validUrl.isUri] takes it.
    A string is what the validator judges.  Any other value (a number, a
    boolean, an array, an object, a missing field) is no URI to the
    package: it returns [undefined] for it, or it throws. *)
Inductive body_field : Type :=
| FieldString (s : string)
| FieldNotUri
| FieldThrows (msg : string).

(** [app.post('/api/shorten', ...)] on any body.  The [isUri] call stands
    before the [try], so what it throws leaves the handler. *)
Definition shorten_any (env : process_env) (isUri : string -> bool)
    (authorization : option string) (field : body_field) : M unit :=
  match field with
  | FieldString s => shorten env isUri (mk_request authorization s "")
  | FieldNotUri => respond (RespJson 400 (ErrorBody "Invalid URL format"))
  | FieldThrows msg => throw msg
  end.

(** ** The rate limiter's options and the page's headers *)

(** [max: (req) => ...] of the limiter on [/api/]. *)
Definition limiter_max (req : request) : Z :=
  if truthy (header_authorization req) then 500 else 50.

(** [keyGenerator: (req, res) => ...]; [ip] is [req.ip]. *)
Definition limiter_keyGenerator (req : request) (ip : string) : string :=
  if truthy (header_authorization req) then or_else (header_authorization req) ""
  else ip.

(** The [Authorization] header a client built by [getSupabase] sends along
    ([global: { headers: { Authorization: `Bearer ${token}` } }]); the
    global client has none of a user. *)
Definition client_authorization (c : client) : option string :=
  match c with
  | ScopedClient token => Some ("Bearer " ++ token)
  | GlobalClient => None
  end.

(** [script.js]: the [Authorization] header the page attaches to its
    requests when it holds a session, whose [access_token] is given. *)
Definition page_authorization (userSession : option string) : option string :=
  match userSession with
  | Some access_token => Some ("Bearer " ++ access_token)
  | None => None
  end.

(** Whether [pat] occurs in [s]. *)
Fixpoint contains (pat s : string) : bool :=
  prefix pat s
  || match s with
     | EmptyString => false
     | String _ s' => contains pat s'
     end.

(** ** Reading a table and a pool *)

(** What identifies a row and never changes: everything but its clicks. *)
Definition identity_of (r : url_row) : string * string * option string * Z :=
  (original_url r, short_code r, user_id r, created_at r).

(** [t'] holds the rows of [t], in place and up to their clicks, followed
    by new rows. *)
Definition table_extends (t t' : list url_row) : Prop :=
  exists added, map identity_of t' = (map identity_of t ++ added)%list.

(** The code a task will look up or account a click for. *)
Definition task_code (t : task) : option string :=
  match t with
  | Incoming (OpRedirect req) => Some (param_shortCode req)
  | Incoming _ => None
  | AwaitingRpc c _ => Some c
  | AwaitingUpdate c _ => Some c
  end.

(** Whether a slot holds a redirect of [code] that is not finished. *)
Definition concerns (code : string) (slot : option task) : bool :=
  match slot with
  | Some t =>
      match task_code t with
      | Some c => String.eqb c code
      | None => false
      end
  | None => false
  end.

(** The number of unfinished redirects of [code] in a pool. *)
Definition in_flight (code : string) (pool : list (option task)) : Z :=
  Z.of_nat (List.length (filter (concerns code) pool)).

Definition flag (b : bool) : Z := if b then 1 else 0.

(** What a slot holds after its task has made a step. *)
Definition slot_after (c : completion (option task)) : option task :=
  match c with
  | Normal next => next
  | Thrown _ => None
  end.

(** The clicks of [code], and the clicks every click-accounting job of
    [code] in flight has read, leave room under [bound] for all the
    redirects of [code] that are not finished. *)
Definition within_bound (code : string) (bound : Z)
    (pool : list (option task)) (t : list url_row) : Prop :=
  (exists c, clicks_of code t = Some c /\ c + in_flight code pool <= bound)
  /\ (forall k,
        In (Some (AwaitingRpc code k)) pool \/ In (Some (AwaitingUpdate code k)) pool ->
        k + in_flight code pool <= bound).

(** A slot whose request has not started yet (or that is empty). *)
Definition not_started (slot : option task) : bool :=
  match slot with
  | Some (Incoming _) => true
  | Some _ => false
  | None => true
  end.

(** The network outcomes of one redirect that is served to its end and
    counted: the lookup goes through, and then either the
    [increment_clicks] call does ([None]) or it fails with a message and
    the direct update goes through. *)
Definition counted_redirect (rpc_error : option string) : list fault :=
  match rpc_error with
  | None => [Healthy; Healthy]
  | Some msg => [Healthy; Fails msg; Healthy]
  end.

(** ** Proof steps *)

(** Unfolds the monad and the primitive calls down to the world. *)
Ltac unfold_handler :=
  unfold run_handler, await, respond, issue, settle, detached, try_catch, throw,
    bind, ret, record_event, with_log, with_urls, with_faults, with_entropy,
    with_now in *;
  simpl in *.

(** Brings the log back to the form [old ++ new]. *)
Ltac tidy_log := repeat rewrite <- app_assoc; cbn [app].

(** * Properties *)

(** ** Basic facts *)

Lemma skipn_app_exact {A} (l l' : list A) : skipn (List.length l) (l ++ l')%list = l'.
Proof. induction l; simpl; auto. Qed.

Lemma emitted_of_log {A} (m : M A) (w : world) (evs : list event) :
  log (run_handler m w) = (log w ++ evs)%list -> emitted m w = evs.
Proof. unfold emitted. intros ->. apply skipn_app_exact. Qed.

Lemma fault_at_0 (w : world) : fault_at 0 w = hd Healthy (faults w).
Proof. unfold fault_at. destruct (faults w); reflexivity. Qed.

(** ** The favicon request *)

(** C10. For the path parameter [favicon.ico] the redirect handler answers a
    bare 404 at once: the log of the run holds that response and nothing
    else (no lookup, no redirect, no click increment), no click-accounting
    job is left in flight, and the world is otherwise untouched. *)
Theorem favicon_is_a_bare_404 :
  forall (req : request) (w : world),
    param_shortCode req = "favicon.ico" ->
    redirect_handler req w = (Normal None, record_event (Respond (RespEnd 404)) w)
    /\ redirect req w = (Normal tt, record_event (Respond (RespEnd 404)) w)
    /\ emitted (redirect req) w = [Respond (RespEnd 404)]
    /\ forallb (fun e => negb (is_network_request e)) (emitted (redirect req) w) = true.
Proof.
  intros req w Hfav.
  assert (Hh : redirect_handler req w
               = (Normal None, record_event (Respond (RespEnd 404)) w)).
  { unfold redirect_handler. rewrite Hfav. reflexivity. }
  assert (Hr : redirect req w = (Normal tt, record_event (Respond (RespEnd 404)) w)).
  { unfold redirect, bind. rewrite Hh. reflexivity. }
  assert (He : emitted (redirect req) w = [Respond (RespEnd 404)]).
  { apply emitted_of_log. unfold run_handler. rewrite Hr. reflexivity. }
  rewrite He. repeat split; auto.
Qed.

Lemma favicon_is_a_bare_404_witness :
  redirect (mk_request None "" "favicon.ico") example_world
  = (Normal tt, record_event (Respond (RespEnd 404)) example_world).
Proof.
  apply (favicon_is_a_bare_404 (mk_request None "" "favicon.ico") example_world).
  reflexivity.
Defined.

(** ** Validation *)

(** C6. A string that [isUri] does not accept makes [shorten] answer 400
    and do nothing else: the run adds the response to the log and leaves
    the table, the pending network outcomes and the random source as they
    were, so no code is generated and no insert (nor any other call) is
    issued. *)
Theorem shorten_rejects_invalid_url :
  forall (env : process_env) (isUri : string -> bool) (req : request) (w : world),
    isUri (body_originalUrl req) = false ->
    shorten env isUri req w
    = (Normal tt, record_event (Respond (RespJson 400 (ErrorBody "Invalid URL format"))) w)
    /\ emitted (shorten env isUri req) w
       = [Respond (RespJson 400 (ErrorBody "Invalid URL format"))]
    /\ map status_of (responses (emitted (shorten env isUri req) w)) = [400]
    /\ forallb (fun e => negb (is_network_request e || is_generate e))
         (emitted (shorten env isUri req) w) = true
    /\ urls (run_handler (shorten env isUri req) w) = urls w
    /\ entropy (run_handler (shorten env isUri req) w) = entropy w
    /\ faults (run_handler (shorten env isUri req) w) = faults w.
Proof.
  intros env isUri req w Hbad.
  assert (Hrun : shorten env isUri req w
    = (Normal tt, record_event (Respond (RespJson 400 (ErrorBody "Invalid URL format"))) w)).
  { unfold shorten. rewrite Hbad. reflexivity. }
  assert (Hev : emitted (shorten env isUri req) w
                = [Respond (RespJson 400 (ErrorBody "Invalid URL format"))]).
  { apply emitted_of_log. unfold run_handler. rewrite Hrun. reflexivity. }
  split; [exact Hrun|]. rewrite Hev.
  unfold run_handler. rewrite Hrun. repeat split.
Qed.

Lemma shorten_rejects_invalid_url_witness :
  example_isUri "not a url" = false
  /\ emitted (shorten example_env example_isUri (mk_request None "not a url" ""))
             example_world
     = [Respond (RespJson 400 (ErrorBody "Invalid URL format"))].
Proof.
  split; [reflexivity|].
  apply (shorten_rejects_invalid_url example_env example_isUri
           (mk_request None "not a url" "") example_world).
  reflexivity.
Defined.

(** ** The redirect handler on a code that resolves *)

Lemma update_clicks_table_keeps (code : string) (n : Z) (t : list url_row) (r : url_row) :
  In r t -> has_code code r = false -> In r (update_clicks_table code n t).
Proof.
  intros Hin Hr. unfold update_clicks_table. apply in_map_iff.
  exists r. rewrite Hr. auto.
Qed.

Lemma filter_single_exists {A} (f : A -> bool) (l : list A) (d : A) :
  filter f l = [d] -> existsb f l = true /\ find f l = Some d.
Proof.
  induction l as [|x l IH]; simpl; [discriminate|].
  destruct (f x) eqn:Hx; simpl; auto.
  intros H. injection H as -> _. auto.
Qed.

Lemma clicks_of_update (code : string) (n : Z) (t : list url_row) :
  existsb (has_code code) t = true ->
  clicks_of code (update_clicks_table code n t) = Some n.
Proof.
  unfold clicks_of, update_clicks_table.
  induction t as [|x t IH]; simpl; [discriminate|].
  destruct (has_code code x) eqn:Hx; simpl.
  - intros _. unfold has_code in *. simpl. rewrite Hx. reflexivity.
  - intros H. rewrite Hx. auto.
Qed.

(** The handler's body on a code whose lookup returns the row [d]: the
    lookup is answered, the redirect is sent, and the [increment_clicks]
    call is issued and left in flight. *)
Lemma redirect_handler_found (req : request) (w : world) (d : url_row) :
  param_shortCode req <> "favicon.ico" ->
  fault_at 0 w = Healthy ->
  filter (has_code (param_shortCode req)) (urls w) = [d] ->
  redirect_handler req w
  = (Normal (Some (param_shortCode req, clicks d)),
     with_log (log w ++ [SelectByCode GlobalClient (param_shortCode req);
                         Respond (RespRedirect (original_url d));
                         RpcIncrementClicks (param_shortCode req)])
       (with_faults (tl (faults w)) w)).
Proof.
  intros Hfav Hf Hd. unfold redirect_handler.
  destruct (String.eqb_spec (param_shortCode req) "favicon.ico") as [E|_]; [contradiction|].
  rewrite fault_at_0 in Hf.
  unfold_handler. rewrite Hf. unfold select_single. simpl. rewrite Hd. simpl.
  tidy_log. reflexivity.
Qed.

(** The whole request is then the handler's body followed by the click
    accounting. *)
Lemma redirect_found (req : request) (w : world) (d : url_row) :
  param_shortCode req <> "favicon.ico" ->
  fault_at 0 w = Healthy ->
  filter (has_code (param_shortCode req)) (urls w) = [d] ->
  redirect req w
  = click_accounting (param_shortCode req) (clicks d)
      (with_log (log w ++ [SelectByCode GlobalClient (param_shortCode req);
                           Respond (RespRedirect (original_url d));
                           RpcIncrementClicks (param_shortCode req)])
         (with_faults (tl (faults w)) w)).
Proof.
  intros Hfav Hf Hd. unfold redirect, bind.
  rewrite (redirect_handler_found req w d Hfav Hf Hd). reflexivity.
Qed.

(** C3. When the [increment_clicks] call of a resolved code comes back with
    an error, the run issues exactly one direct update, keyed by the short
    code and carrying the clicks read by the lookup plus one, and nothing
    after it whatever the update's outcome: the log of the whole request is
    lookup, redirect, increment, update, and exactly three network answers
    are consumed.  If the update goes through, the record's clicks are the
    clicks read plus one; if not, the table is unchanged. *)
Theorem fallback_is_one_update :
  forall (req : request) (w : world) (d : url_row) (msg : string),
    param_shortCode req <> "favicon.ico" ->
    fault_at 0 w = Healthy ->
    filter (has_code (param_shortCode req)) (urls w) = [d] ->
    fault_at 1 w = Fails msg ->
    let code := param_shortCode req in
    let w' := run_handler (redirect req) w in
    emitted (redirect req) w
    = [SelectByCode GlobalClient code;
       Respond (RespRedirect (original_url d));
       RpcIncrementClicks code;
       UpdateClicks code (clicks d + 1)]
    /\ faults w' = tl (tl (tl (faults w)))
    /\ (fault_at 2 w = Healthy ->
        urls w' = update_clicks_table code (clicks d + 1) (urls w)
        /\ clicks_of code (urls w') = Some (clicks d + 1)
        /\ (forall r, In r (urls w) -> has_code code r = false -> In r (urls w')))
    /\ (fault_at 2 w <> Healthy -> urls w' = urls w).
Proof.
  intros req w d msg Hfav Hf0 Hd Hf1 code w'.
  subst w'. unfold emitted, run_handler.
  rewrite (redirect_found req w d Hfav Hf0 Hd).
  apply filter_single_exists in Hd. destruct Hd as [Hex _].
  fold code in Hex |- *.
  destruct w as [t ss fs en nw lg]. unfold fault_at in *. simpl in *.
  destruct fs as [|f0 [|f1 fs]]; simpl in *; try discriminate.
  subst f0 f1.
  unfold click_accounting, rpc_settled, update_settled. unfold_handler.
  destruct fs as [|f2 fs]; simpl.
  - tidy_log. rewrite skipn_app_exact.
    repeat split; auto.
    + apply clicks_of_update; assumption.
    + intros r Hr Hc. apply update_clicks_table_keeps; assumption.
    + intros H; contradiction H; reflexivity.
  - destruct f2; simpl; tidy_log; rewrite skipn_app_exact;
      repeat split; auto; try discriminate;
      try (intros H; contradiction H; reflexivity).
    + apply clicks_of_update; assumption.
    + intros r Hr Hc. apply update_clicks_table_keeps; assumption.
Qed.

Lemma fallback_is_one_update_witness :
  emitted (redirect (mk_request None "" "uuuuuu"))
          (with_faults [Healthy; Fails "function not found"] example_world)
  = [SelectByCode GlobalClient "uuuuuu";
     Respond (RespRedirect "https://example.com/very/long/path");
     RpcIncrementClicks "uuuuuu";
     UpdateClicks "uuuuuu" 1].
Proof.
  apply (fallback_is_one_update (mk_request None "" "uuuuuu")
           (with_faults [Healthy; Fails "function not found"] example_world)
           example_row "function not found");
    simpl; solve [discriminate | reflexivity].
Defined.

(** What click accounting does to a world whose log is [lg]: the events it
    adds are at most the one direct update. *)
Lemma click_accounting_log (code : string) (k : Z) (w : world) :
  fst (click_accounting code k w) = Normal tt
  /\ (log (snd (click_accounting code k w)) = log w
      \/ log (snd (click_accounting code k w))
         = (log w ++ [UpdateClicks code (k + 1)])%list).
Proof.
  destruct w as [t ss fs en nw lg].
  unfold click_accounting, rpc_settled, update_settled, increment_clicks, update_clicks.
  unfold_handler.
  destruct fs as [|f1 fs]; simpl.
  - destruct (existsb (has_code code) t); simpl; auto.
  - destruct f1; simpl; auto.
    + destruct (existsb (has_code code) t); simpl; auto.
      destruct fs as [|f2 fs]; simpl; auto. destruct f2; simpl; auto.
    + destruct fs as [|f2 fs]; simpl; auto. destruct f2; simpl; auto.
Qed.

Lemma click_accounting_double_failure (code : string) (k : Z) (w : world) :
  fault_at 0 w <> Healthy -> fault_at 1 w <> Healthy ->
  urls (snd (click_accounting code k w)) = urls w.
Proof.
  destruct w as [t ss fs en nw lg]. unfold fault_at. simpl.
  unfold click_accounting, rpc_settled, update_settled, increment_clicks, update_clicks.
  unfold_handler.
  destruct fs as [|f1 fs]; simpl; [congruence|].
  destruct f1; simpl; [congruence| |]; intros _ H2; auto.
  destruct fs as [|f2 fs]; simpl in *; [congruence|].
  destruct f2; simpl; auto. congruence.
Qed.

(** C4. For a code that resolves, the click increment cannot be observed
    by the caller, whatever the outcomes of the [increment_clicks] call and
    of the direct update: the request completes without an exception, the
    one response sent is the redirect to the original URL, and when both
    the increment and the direct update fail the table (and with it the
    stored click count) is unchanged. *)
Theorem click_failure_is_invisible :
  forall (req : request) (w : world) (d : url_row),
    param_shortCode req <> "favicon.ico" ->
    fault_at 0 w = Healthy ->
    filter (has_code (param_shortCode req)) (urls w) = [d] ->
    fst (redirect req w) = Normal tt
    /\ responses (emitted (redirect req) w) = [RespRedirect (original_url d)]
    /\ (fault_at 1 w <> Healthy -> fault_at 2 w <> Healthy ->
        urls (run_handler (redirect req) w) = urls w
        /\ clicks_of (param_shortCode req) (urls (run_handler (redirect req) w))
           = Some (clicks d)).
Proof.
  intros req w d Hfav Hf0 Hd.
  unfold emitted, run_handler. rewrite (redirect_found req w d Hfav Hf0 Hd).
  set (w1 := with_log _ _).
  destruct (click_accounting_log (param_shortCode req) (clicks d) w1) as [Hc Hl].
  split; [exact Hc|]. split.
  - destruct Hl as [-> | ->]; subst w1; simpl; tidy_log;
      rewrite skipn_app_exact; reflexivity.
  - intros H1 H2.
    assert (Hu : urls (snd (click_accounting (param_shortCode req) (clicks d) w1)) = urls w).
    { rewrite click_accounting_double_failure; [reflexivity| |];
        subst w1; unfold fault_at in *; simpl;
        destruct (faults w) as [|f0 [|f1 fs]]; simpl in *; auto. }
    rewrite Hu. split; [reflexivity|].
    apply filter_single_exists in Hd. destruct Hd as [_ Hfind].
    unfold clicks_of. rewrite Hfind. reflexivity.
Qed.

Lemma click_failure_is_invisible_witness :
  responses
    (emitted (redirect (mk_request None "" "uuuuuu"))
       (with_faults [Healthy; Fails "timeout"; Throws "connection reset"] example_world))
  = [RespRedirect "https://example.com/very/long/path"]
  /\ clicks_of "uuuuuu"
       (urls (run_handler (redirect (mk_request None "" "uuuuuu"))
          (with_faults [Healthy; Fails "timeout"; Throws "connection reset"] example_world)))
     = Some 0.
Proof.
  destruct (click_failure_is_invisible (mk_request None "" "uuuuuu")
              (with_faults [Healthy; Fails "timeout"; Throws "connection reset"]
                 example_world)
              example_row) as [_ [Hr Hu]];
    try solve [simpl; discriminate | reflexivity].
  split; [exact Hr|].
  apply Hu; simpl; discriminate.
Defined.

(** C5. For a code whose lookup returns its record, the handler's body
    sends the redirect to the record's original URL and returns with the
    [increment_clicks] call only issued: of the pending network answers it
    has consumed the lookup's alone, and the table is as it was.  In the
    log of the whole request the redirect comes right after the lookup, and
    every click-accounting event comes after the redirect. *)
Theorem redirect_precedes_click_accounting :
  forall (req : request) (w : world) (d : url_row),
    param_shortCode req <> "favicon.ico" ->
    fault_at 0 w = Healthy ->
    filter (has_code (param_shortCode req)) (urls w) = [d] ->
    let code := param_shortCode req in
    fst (redirect_handler req w) = Normal (Some (code, clicks d))
    /\ emitted (redirect_handler req) w
       = [SelectByCode GlobalClient code;
          Respond (RespRedirect (original_url d));
          RpcIncrementClicks code]
    /\ faults (run_handler (redirect_handler req) w) = tl (faults w)
    /\ urls (run_handler (redirect_handler req) w) = urls w
    /\ exists later,
         emitted (redirect req) w
         = ([SelectByCode GlobalClient code;
             Respond (RespRedirect (original_url d))] ++ later)%list
         /\ forallb is_accounting later = true.
Proof.
  intros req w d Hfav Hf0 Hd code.
  unfold emitted, run_handler.
  rewrite (redirect_handler_found req w d Hfav Hf0 Hd).
  rewrite (redirect_found req w d Hfav Hf0 Hd).
  fold code. simpl. rewrite skipn_app_exact.
  repeat split.
  set (w1 := with_log _ _).
  destruct (click_accounting_log code (clicks d) w1) as [_ [Hl | Hl]];
    rewrite Hl; subst w1; simpl; tidy_log; rewrite skipn_app_exact.
  - exists [RpcIncrementClicks code]. auto.
  - exists [RpcIncrementClicks code; UpdateClicks code (clicks d + 1)]. auto.
Qed.

Lemma redirect_precedes_click_accounting_witness :
  emitted (redirect_handler (mk_request None "" "uuuuuu")) example_world
  = [SelectByCode GlobalClient "uuuuuu";
     Respond (RespRedirect "https://example.com/very/long/path");
     RpcIncrementClicks "uuuuuu"].
Proof.
  apply (redirect_precedes_click_accounting (mk_request None "" "uuuuuu")
           example_world example_row);
    solve [simpl; discriminate | reflexivity].
Defined.

(** ** The listing *)

Lemma insert_desc_in (r x : url_row) (l : list url_row) :
  In x (insert_desc r l) <-> x = r \/ In x l.
Proof.
  induction l as [|y l IH]; simpl.
  - intuition auto.
  - destruct (created_at y <? created_at r); simpl; [intuition auto|].
    rewrite IH. intuition auto.
Qed.

Lemma order_desc_in (x : url_row) (l : list url_row) :
  In x (order_desc l) <-> In x l.
Proof.
  induction l as [|y l IH]; simpl; [reflexivity|].
  rewrite insert_desc_in, IH. intuition auto.
Qed.

Lemma insert_desc_hd (x r : url_row) (l : list url_row) :
  newest_first x r -> HdRel newest_first x l -> HdRel newest_first x (insert_desc r l).
Proof.
  intros Hxr Hl. destruct l as [|y l]; simpl; [auto|].
  destruct (created_at y <? created_at r); constructor; auto.
  inversion Hl; auto.
Qed.

Lemma insert_desc_sorted (r : url_row) (l : list url_row) :
  Sorted newest_first l -> Sorted newest_first (insert_desc r l).
Proof.
  induction 1 as [|x l Hs IH Hhd]; simpl.
  - repeat constructor.
  - destruct (created_at x <? created_at r) eqn:Hlt.
    + constructor; [constructor; auto|]. constructor.
      unfold newest_first. apply Z.ltb_lt in Hlt. lia.
    + constructor; [exact IH|]. apply insert_desc_hd; auto.
      unfold newest_first. apply Z.ltb_ge in Hlt. exact Hlt.
Qed.

Lemma order_desc_sorted (l : list url_row) : Sorted newest_first (order_desc l).
Proof.
  induction l as [|x l IH]; simpl; [constructor|].
  apply insert_desc_sorted; exact IH.
Qed.

Lemma newest_first_trans : Relations_1.Transitive newest_first.
Proof. intros a b c. unfold newest_first. lia. Qed.

Lemma firstn_incl {A} (n : nat) (l : list A) (x : A) : In x (firstn n l) -> In x l.
Proof.
  revert l. induction n as [|n IH]; intros [|y l]; simpl; intuition auto.
Qed.

Lemma firstn_strongly_sorted {A} (R : A -> A -> Prop) (n : nat) (l : list A) :
  StronglySorted R l -> StronglySorted R (firstn n l).
Proof.
  revert l. induction n as [|n IH]; intros l Hs; simpl; [constructor|].
  destruct Hs as [|x l Hs Hall]; constructor; auto.
  rewrite Forall_forall in *. intros y Hy. apply Hall. eapply firstn_incl; eauto.
Qed.

Lemma page_of_spec (uid : string) (t : list url_row) :
  Forall (fun r => owned_by uid r = true /\ In r t) (page_of uid t)
  /\ StronglySorted newest_first (page_of uid t)
  /\ (List.length (page_of uid t) <= 50)%nat.
Proof.
  unfold page_of. repeat split.
  - apply Forall_forall. intros r Hr.
    apply firstn_incl, order_desc_in, filter_In in Hr. tauto.
  - apply firstn_strongly_sorted, Sorted_StronglySorted.
    + exact newest_first_trans.
    + apply order_desc_sorted.
  - apply firstn_le_length.
Qed.

Lemma get_user_shape (c : client) (w : world) :
  snd (get_user c w) = w
  /\ ((exists uid, fst (get_user c w) = succeeded uid)
      \/ (exists msg, fst (get_user c w) = failed msg)).
Proof.
  unfold get_user. destruct c as [|token]; simpl; eauto.
  destruct (lookup_session token (sessions w)); simpl; eauto.
Qed.

(** The listing for a caller the auth service names. *)
Lemma list_urls_authenticated (env : process_env) (req : request) (w : world) (uid : string) :
  whoami (getSupabase req) w = Some uid ->
  exists resp,
    responses (emitted (list_urls env req) w) = [resp]
    /\ Forall (fun r => owned_by uid r = true /\ In r (urls w)) (records_of resp)
    /\ StronglySorted newest_first (records_of resp)
    /\ (List.length (records_of resp) <= 50)%nat
    /\ (fault_at 1 w = Healthy ->
        resp = RespJson 200
                 (UrlList (map (fun u => (u, baseUrl env ++ "/" ++ short_code u))
                               (page_of uid (urls w)))))
    /\ (fault_at 1 w <> Healthy -> resp = RespJson 500 (ErrorBody "Server error")).
Proof.
  unfold whoami, emitted, run_handler, list_urls.
  set (sb := getSupabase req). clearbody sb.
  destruct w as [t ss fs en nw lg].
  unfold fault_at, get_user, select_by_user in *. simpl in *. unfold_handler.
  assert (H0 : nth 0 fs Healthy = hd Healthy fs) by (destruct fs; reflexivity).
  assert (H1f : nth 1 fs Healthy = hd Healthy (tl fs))
    by (destruct fs as [|? [|? ?]]; reflexivity).
  rewrite H0, H1f.
  destruct (hd Healthy fs) eqn:Hf0; simpl; try discriminate.
  destruct sb as [|token]; simpl; [discriminate|].
  destruct (lookup_session token ss) as [u|]; simpl; [|discriminate].
  intros Hu. injection Hu as ->.
  destruct (page_of_spec uid t) as [Hown [Hsort Hlen]].
  destruct (hd Healthy (tl fs)) eqn:Hf1; simpl;
    tidy_log; rewrite skipn_app_exact; simpl;
    eexists; (split; [reflexivity|]); simpl;
    try (rewrite map_map; simpl; rewrite map_id);
    repeat split; auto; try constructor; try discriminate;
    try (intros H; contradiction H; reflexivity); try lia.
Qed.

(** The listing for a caller the auth service does not name. *)
Lemma list_urls_unauthenticated (env : process_env) (req : request) (w : world) :
  (forall msg, fault_at 0 w <> Throws msg) ->
  whoami (getSupabase req) w = None ->
  list_urls env req w
  = (Normal tt,
     with_log (log w ++ [GetUser (getSupabase req); Respond (RespJson 200 (UrlList []))])
       (with_faults (tl (faults w)) w)).
Proof.
  unfold whoami, list_urls.
  set (sb := getSupabase req). clearbody sb.
  destruct w as [t ss fs en nw lg].
  unfold fault_at, get_user in *. simpl in *. unfold_handler.
  assert (H0 : nth 0 fs Healthy = hd Healthy fs) by (destruct fs; reflexivity).
  rewrite H0. intros Hno.
  destruct (hd Healthy fs) eqn:Hf0; simpl.
  - destruct sb as [|token]; simpl; [intros _; tidy_log; reflexivity|].
    destruct (lookup_session token ss) as [u|]; simpl; [discriminate|].
    intros _; tidy_log; reflexivity.
  - intros _; tidy_log; reflexivity.
  - exfalso. apply (Hno msg). reflexivity.
Qed.

(** C9. For every request to the listing endpoint whose [getUser] call
    does not reject: if the auth service names no user, the run is the
    [getUser] call followed by the response 200 with the empty list, so no
    request to the table is issued and the table is untouched; if it names
    the user [uid], the one response sent lists only rows of the table
    owned by [uid], newest first, at most 50 of them (none when the query
    fails, which answers 500), and when the query goes through it is 200
    with the newest 50 rows of [uid], each with its short URL. *)
Theorem listing_is_scoped_sorted_capped :
  forall (env : process_env) (req : request) (w : world),
    (forall msg, fault_at 0 w <> Throws msg) ->
    let sb := getSupabase req in
    match whoami sb w with
    | None =>
        list_urls env req w
        = (Normal tt,
           with_log (log w ++ [GetUser sb; Respond (RespJson 200 (UrlList []))])
             (with_faults (tl (faults w)) w))
        /\ emitted (list_urls env req) w
           = [GetUser sb; Respond (RespJson 200 (UrlList []))]
        /\ forallb (fun e => negb (is_table_request e)) (emitted (list_urls env req) w)
           = true
    | Some uid =>
        exists resp,
          responses (emitted (list_urls env req) w) = [resp]
          /\ Forall (fun r => owned_by uid r = true /\ In r (urls w)) (records_of resp)
          /\ StronglySorted newest_first (records_of resp)
          /\ (List.length (records_of resp) <= 50)%nat
          /\ (fault_at 1 w = Healthy ->
              resp = RespJson 200
                       (UrlList (map (fun u => (u, baseUrl env ++ "/" ++ short_code u))
                                     (page_of uid (urls w)))))
          /\ (fault_at 1 w <> Healthy -> resp = RespJson 500 (ErrorBody "Server error"))
    end.
Proof.
  intros env req w Hno sb. subst sb.
  destruct (whoami (getSupabase req) w) as [uid|] eqn:Hwho.
  - apply list_urls_authenticated; exact Hwho.
  - pose proof (list_urls_unauthenticated env req w Hno Hwho) as Hrun.
    assert (Hev : emitted (list_urls env req) w
                  = [GetUser (getSupabase req); Respond (RespJson 200 (UrlList []))]).
    { apply emitted_of_log. unfold run_handler. rewrite Hrun. reflexivity. }
    rewrite Hev. auto.
Qed.

Lemma listing_is_scoped_sorted_capped_witness :
  emitted (list_urls example_env (mk_request None "" "")) example_world
  = [GetUser GlobalClient; Respond (RespJson 200 (UrlList []))].
Proof.
  apply (listing_is_scoped_sorted_capped example_env (mk_request None "" "") example_world).
  simpl. discriminate.
Defined.

(** ** The code generator *)

Lemma string_of_list_length (l : list ascii) :
  String.length (string_of_list_ascii l) = List.length l.
Proof. induction l; simpl; auto. Qed.

Lemma random_bytes_length (size : nat) (l : list N) :
  List.length (random_bytes size l) = size.
Proof.
  unfold random_bytes. rewrite length_firstn, length_app, repeat_length. lia.
Qed.

Lemma alphabet_is_url_safe :
  forallb is_url_safe (list_ascii_of_string urlAlphabet) = true.
Proof. reflexivity. Qed.

Lemma pick_is_url_safe (b : N) : is_url_safe (pick b) = true.
Proof.
  pose proof alphabet_is_url_safe as H. rewrite forallb_forall in H.
  apply H. unfold pick. apply nth_In.
  change 63%N with (N.ones 6). rewrite N.land_ones.
  change (List.length (list_ascii_of_string urlAlphabet)) with 64%nat.
  pose proof (N.mod_lt b (2 ^ 6)%N). change (2 ^ 6)%N with 64%N in *. lia.
Qed.

Lemma code_of_bytes_shape (bytes : list N) :
  String.length (code_of_bytes bytes) = List.length bytes
  /\ Forall (fun c => is_url_safe c = true)
            (list_ascii_of_string (code_of_bytes bytes)).
Proof.
  unfold code_of_bytes. split.
  - rewrite string_of_list_length, length_map. reflexivity.
  - rewrite list_ascii_of_string_of_list_ascii. apply Forall_forall.
    intros c Hc. apply in_map_iff in Hc. destruct Hc as [b [<- _]].
    apply pick_is_url_safe.
Qed.

Lemma next_code_shape (w : world) :
  String.length (next_code w) = 6%nat
  /\ Forall (fun c => is_url_safe c = true) (list_ascii_of_string (next_code w)).
Proof.
  unfold next_code.
  destruct (code_of_bytes_shape (random_bytes 6 (entropy w))) as [Hl Hs].
  rewrite random_bytes_length in Hl. auto.
Qed.

(** ** Shortening *)

Lemma shorten_valid_run
    (env : process_env) (isUri : string -> bool) (req : request) (w : world) :
  isUri (body_originalUrl req) = true ->
  reaches_insert req w = true ->
  let code := next_code w in
  let sb := getSupabase req in
  let uid := shorten_user req w in
  let url := body_originalUrl req in
  let w' := run_handler (shorten env isUri req) w in
  fst (shorten env isUri req w) = Normal tt
  /\ emitted (shorten env isUri req) w
     = (Generate code
        :: (if truthy (header_authorization req) then [GetUser sb] else [])
        ++ [InsertUrl sb url code uid;
            Respond (if shorten_ok req w
                     then RespJson 200 (Shortened code (baseUrl env ++ "/" ++ code) url
                                          "URL shortened successfully")
                     else shorten_failure)])%list
  /\ urls w' = (if shorten_ok req w
                then (urls w ++ [mk_row url code uid 0 (now w)])%list
                else urls w)
  /\ entropy w' = skipn 6 (entropy w).
Proof.
  intros Hvalid Hreach code sb uid url w'.
  subst w' code uid sb.
  unfold emitted, run_handler, shorten, shorten_ok, shorten_user, reaches_insert,
    insert_position, whoami, getSupabase, next_code, nanoid in *.
  rewrite Hvalid. fold url.
  destruct w as [t ss fs en nw lg]. unfold fault_at in *. cbn [negb urls faults entropy log now sessions] in *.
  set (code := code_of_bytes (random_bytes 6 en)).
  unfold insert_row, get_user. unfold_handler.
  fold code.
  destruct (truthy (header_authorization req)) eqn:Hauth; simpl.
  - set (token := replace_first _ _ _).
    destruct fs as [|f0 fs]; simpl in *.
    + destruct (lookup_session token ss); simpl;
        destruct (existsb (has_code code) t) eqn:Hex; simpl;
        tidy_log; rewrite skipn_app_exact; auto.
    + destruct f0; simpl in *; try discriminate;
        try (destruct (lookup_session token ss); simpl);
        (destruct fs as [|f1 fs]; simpl; [|destruct f1; simpl]);
        try (destruct (existsb (has_code code) t) eqn:Hex; simpl);
        tidy_log; rewrite skipn_app_exact; auto.
  - destruct fs as [|f0 fs]; simpl; [|destruct f0; simpl];
      try (destruct (existsb (has_code code) t) eqn:Hex; simpl);
      tidy_log; rewrite skipn_app_exact; auto.
Qed.

(** A [getUser] call that rejects takes [shorten] to its [catch] before
    the insert. *)
Lemma shorten_unreached_insert
    (env : process_env) (isUri : string -> bool) (req : request) (w : world) :
  isUri (body_originalUrl req) = true ->
  reaches_insert req w = false ->
  emitted (shorten env isUri req) w
  = [Generate (next_code w); GetUser (getSupabase req); Respond shorten_failure]
  /\ urls (run_handler (shorten env isUri req) w) = urls w.
Proof.
  intros Hvalid Hreach.
  unfold emitted, run_handler, shorten, reaches_insert, nanoid, next_code in *.
  rewrite Hvalid.
  destruct w as [t ss fs en nw lg]. unfold fault_at in *.
  cbn [negb urls faults entropy log now sessions] in *.
  set (code := code_of_bytes (random_bytes 6 en)).
  destruct (truthy (header_authorization req)); [|discriminate].
  unfold_handler.
  destruct fs as [|f0 fs]; simpl in *; [discriminate|].
  destruct f0; try discriminate. simpl.
  tidy_log. rewrite skipn_app_exact. auto.
Qed.

(** C8 does not hold of the code: a URL that [isUri] accepts, sent with a
    credential the auth service knows to a store that answers every call,
    is not shortened when the generated code is taken.  The response is
    the 500 of a store failure and no row is stored. *)
Lemma valid_url_is_answered_500_on_a_taken_code :
  example_isUri "https://example.com/very/long/path" = true
  /\ faults collision_world = []
  /\ existsb (has_code (next_code collision_world)) (urls collision_world) = true
  /\ emitted
       (shorten example_env example_isUri
          (mk_request (Some "Bearer tok") "https://example.com/very/long/path" ""))
       collision_world
     = [Generate "uuuuuu";
        GetUser (ScopedClient "tok");
        InsertUrl (ScopedClient "tok") "https://example.com/very/long/path" "uuuuuu"
          (Some "alice");
        Respond
          (RespJson 500
             (ErrorBody "Failed to shorten URL. Database connection may be missing."))]
  /\ urls (run_handler
             (shorten example_env example_isUri
                (mk_request (Some "Bearer tok") "https://example.com/very/long/path" ""))
             collision_world)
     = urls collision_world.
Proof. repeat split. Qed.

(** C8, as the code has it: for every URL that [isUri] accepts, [shorten]
    generates a code of exactly 6 characters, all of them letters, digits,
    [-] or [_].  Whenever its insert is accepted (the [getUser] call, if
    any, does not reject, the insert call goes through and the code is not
    taken) it completes with the response 200 carrying that code as
    [shortCode] and the configured base URL followed by [/] and the code
    as [shortUrl], and stores the row under that code.  In every other
    case it answers 500 and stores nothing.  The configured base URL is
    [https://] followed by [VERCEL_URL] when that is set and not empty,
    and otherwise [http://localhost:] followed by [PORT], or by [3000]
    when [PORT] is unset or empty. *)
Theorem shorten_succeeds_when_the_insert_is_accepted :
  forall (env : process_env) (isUri : string -> bool) (req : request) (w : world),
    isUri (body_originalUrl req) = true ->
    let run := shorten env isUri req in
    let shortCode := next_code w in
    let success :=
      RespJson 200
        (Shortened shortCode (baseUrl env ++ "/" ++ shortCode)
           (body_originalUrl req) "URL shortened successfully") in
    String.length shortCode = 6%nat
    /\ Forall (fun c => is_url_safe c = true) (list_ascii_of_string shortCode)
    /\ filter is_generate (emitted run w) = [Generate shortCode]
    /\ (reaches_insert req w = true ->
        fault_at (insert_position req) w = Healthy ->
        existsb (has_code shortCode) (urls w) = false ->
        fst (run w) = Normal tt
        /\ responses (emitted run w) = [success]
        /\ urls (run_handler run w)
           = (urls w ++ [mk_row (body_originalUrl req) shortCode (shorten_user req w)
                           0 (now w)])%list)
    /\ (reaches_insert req w = false
        \/ fault_at (insert_position req) w <> Healthy
        \/ existsb (has_code shortCode) (urls w) = true ->
        responses (emitted run w) = [shorten_failure]
        /\ urls (run_handler run w) = urls w)
    /\ (forall v, VERCEL_URL env = Some v -> v <> "" -> baseUrl env = "https://" ++ v)
    /\ (VERCEL_URL env = None \/ VERCEL_URL env = Some "" ->
        (forall p, PORT_var env = Some p -> p <> "" ->
                   baseUrl env = "http://localhost:" ++ p)
        /\ (PORT_var env = None \/ PORT_var env = Some "" ->
            baseUrl env = "http://localhost:3000")).
Proof.
  intros env isUri req w Hvalid run shortCode success. subst run shortCode success.
  destruct (next_code_shape w) as [Hlen Hsafe].
  split; [exact Hlen|]. split; [exact Hsafe|].
  split; [|split; [|split; [|split]]].
  - destruct (reaches_insert req w) eqn:Hreach.
    + destruct (shorten_valid_run env isUri req w Hvalid Hreach) as [_ [Hev _]].
      rewrite Hev. destruct (truthy (header_authorization req)); reflexivity.
    + destruct (shorten_unreached_insert env isUri req w Hvalid Hreach) as [Hev _].
      rewrite Hev. reflexivity.
  - intros Hreach Hins Hfresh.
    destruct (shorten_valid_run env isUri req w Hvalid Hreach) as [Hc [Hev [Hu _]]].
    assert (Hok : shorten_ok req w = true).
    { unfold shorten_ok. rewrite Hins, Hfresh. reflexivity. }
    rewrite Hok in Hev, Hu. rewrite Hev. repeat split; auto.
    destruct (truthy (header_authorization req)); reflexivity.
  - intros Hfail.
    destruct (reaches_insert req w) eqn:Hreach.
    + destruct (shorten_valid_run env isUri req w Hvalid Hreach) as [_ [Hev [Hu _]]].
      assert (Hok : shorten_ok req w = false).
      { unfold shorten_ok.
        destruct Hfail as [Hf | [Hf | Hf]]; [discriminate| |].
        - destruct (fault_at (insert_position req) w); [contradiction Hf|..]; reflexivity.
        - rewrite Hf. destruct (fault_at (insert_position req) w); reflexivity. }
      rewrite Hok in Hev, Hu. rewrite Hev.
      split; [|exact Hu].
      destruct (truthy (header_authorization req)); reflexivity.
    + destruct (shorten_unreached_insert env isUri req w Hvalid Hreach) as [Hev Hu].
      rewrite Hev. split; [reflexivity|exact Hu].
  - intros v Hv Hne. unfold baseUrl, truthy, or_else. rewrite Hv.
    apply String.eqb_neq in Hne. rewrite Hne. reflexivity.
  - intros Hunset.
    assert (Hfalse : truthy (VERCEL_URL env) = false)
      by (destruct Hunset as [-> | ->]; reflexivity).
    unfold baseUrl, PORT. rewrite Hfalse. split.
    + intros p Hp Hne. unfold or_else. rewrite Hp.
      apply String.eqb_neq in Hne. rewrite Hne. reflexivity.
    + intros [-> | ->]; reflexivity.
Qed.

Lemma shorten_succeeds_when_the_insert_is_accepted_witness :
  responses
    (emitted (shorten (mk_env (Some "links.example") None) example_isUri
                (mk_request (Some "Bearer tok") "https://example.com/very/long/path" ""))
       example_world)
  = [RespJson 200
       (Shortened "seando" "https://links.example/seando"
          "https://example.com/very/long/path" "URL shortened successfully")]
  /\ urls (run_handler
             (shorten (mk_env (Some "links.example") None) example_isUri
                (mk_request (Some "Bearer tok") "https://example.com/very/long/path" ""))
             example_world)
     = [example_row;
        mk_row "https://example.com/very/long/path" "seando" (Some "alice") 0 10].
Proof.
  destruct (shorten_succeeds_when_the_insert_is_accepted
              (mk_env (Some "links.example") None) example_isUri
              (mk_request (Some "Bearer tok") "https://example.com/very/long/path" "")
              example_world eq_refl) as [_ [_ [_ [H _]]]].
  destruct H as [_ [Hr Hu]]; try reflexivity.
  split; [exact Hr | exact Hu].
Defined.

(** ** Collisions *)

(** C1 does not hold of the code: in [collision_world] the store is reachable, the
    first generated code is taken and the next one would be free, yet the
    request is answered 500 after a single generation and a single insert,
    and nothing is stored. *)
Lemma single_collision_is_an_error :
  example_isUri (body_originalUrl collision_request) = true
  /\ faults collision_world = []
  /\ existsb (has_code (next_code collision_world)) (urls collision_world) = true
  /\ existsb (has_code (next_code (run_handler (nanoid 6) collision_world)))
       (urls collision_world) = false
  /\ emitted (shorten example_env example_isUri collision_request) collision_world
     = [Generate "uuuuuu";
        InsertUrl GlobalClient "https://example.com/other" "uuuuuu" None;
        Respond
          (RespJson 500
             (ErrorBody "Failed to shorten URL. Database connection may be missing."))]
  /\ urls (run_handler (shorten example_env example_isUri collision_request)
             collision_world)
     = urls collision_world.
Proof. repeat split. Qed.

(** C1, as the code has it: when the generated code is already taken, so
    that the insert that is reached and goes through to the store fails
    with a unique violation, [shorten] neither regenerates nor retries.
    The run generates one code, issues one insert, answers 500 and stores
    nothing; the random source has given the bytes of one code only. *)
Theorem collision_is_not_retried :
  forall (env : process_env) (isUri : string -> bool) (req : request) (w : world),
    isUri (body_originalUrl req) = true ->
    reaches_insert req w = true ->
    fault_at (insert_position req) w = Healthy ->
    existsb (has_code (next_code w)) (urls w) = true ->
    let evs := emitted (shorten env isUri req) w in
    let w' := run_handler (shorten env isUri req) w in
    responses evs = [shorten_failure]
    /\ filter is_generate evs = [Generate (next_code w)]
    /\ filter is_insert evs
       = [InsertUrl (getSupabase req) (body_originalUrl req) (next_code w)
            (shorten_user req w)]
    /\ urls w' = urls w
    /\ entropy w' = skipn 6 (entropy w).
Proof.
  intros env isUri req w Hvalid Hreach Hins Htaken evs w'. subst evs w'.
  destruct (shorten_valid_run env isUri req w Hvalid Hreach) as [_ [Hev [Hu He]]].
  assert (Hok : shorten_ok req w = false).
  { unfold shorten_ok. rewrite Hins, Htaken. reflexivity. }
  rewrite Hok in Hev, Hu. rewrite Hev.
  destruct (truthy (header_authorization req)); repeat split; auto.
Qed.

Lemma collision_is_not_retried_witness :
  responses
    (emitted (shorten example_env example_isUri collision_request) collision_world)
  = [shorten_failure].
Proof.
  apply (collision_is_not_retried example_env example_isUri
           collision_request collision_world);
    reflexivity.
Defined.

(** ** Store failures on the request paths *)

(** C7 does not hold of the code: the stats endpoint answers a store failure that
    comes back as an error with the 404 of an unknown code, although the
    record exists. *)
Lemma stats_reports_store_failure_as_404 :
  clicks_of "uuuuuu" (urls example_world) = Some 0
  /\ emitted (stats example_env (mk_request None "" "uuuuuu"))
       (with_faults [Fails "connection refused"] example_world)
     = [SelectByCode GlobalClient "uuuuuu";
        Respond (RespJson 404 (ErrorBody "URL not found"))]
  /\ map status_of
       (responses
          (emitted (stats example_env (mk_request None "" "uuuuuu"))
             (with_faults [Fails "connection refused"] example_world)))
     = [404].
Proof. repeat split. Qed.

(** C7, as the code has it: a store call that fails on a request path is
    answered 500 by [shorten] (the insert fails or rejects) and by the
    listing (the query fails or rejects); the stats endpoint answers 500
    only when the lookup rejects, and 404 when it comes back with an
    error; the redirect handler answers with a redirect to the error page,
    [not_found] for an error and [server_error] for a rejection. *)
Theorem store_failure_responses :
  forall (env : process_env) (isUri : string -> bool) (req : request) (w : world),
    (isUri (body_originalUrl req) = true ->
     fault_at (insert_position req) w <> Healthy ->
     responses (emitted (shorten env isUri req) w) = [shorten_failure])
    /\ (forall uid, whoami (getSupabase req) w = Some uid ->
        fault_at 1 w <> Healthy ->
        responses (emitted (list_urls env req) w)
        = [RespJson 500 (ErrorBody "Server error")])
    /\ (forall msg, fault_at 0 w = Throws msg ->
        responses (emitted (stats env req) w)
        = [RespJson 500 (ErrorBody "Failed to fetch statistics")])
    /\ (forall msg, fault_at 0 w = Fails msg ->
        responses (emitted (stats env req) w)
        = [RespJson 404 (ErrorBody "URL not found")])
    /\ (param_shortCode req <> "favicon.ico" ->
        (forall msg, fault_at 0 w = Fails msg ->
         responses (emitted (redirect req) w) = [RespRedirect "/?error=not_found"])
        /\ (forall msg, fault_at 0 w = Throws msg ->
            responses (emitted (redirect req) w) = [RespRedirect "/?error=server_error"])).
Proof.
  intros env isUri req w. split; [|split; [|split; [|split]]].
  - intros Hvalid Hins.
    destruct (reaches_insert req w) eqn:Hreach.
    + destruct (shorten_valid_run env isUri req w Hvalid Hreach) as [_ [Hev _]].
      rewrite Hev. unfold shorten_ok.
      destruct (fault_at (insert_position req) w); [congruence| |];
        destruct (truthy (header_authorization req)); reflexivity.
    + destruct (shorten_unreached_insert env isUri req w Hvalid Hreach) as [Hev _].
      rewrite Hev. reflexivity.
  - intros uid Hwho Hq.
    destruct (list_urls_authenticated env req w uid Hwho)
      as [resp [Hr [_ [_ [_ [_ H500]]]]]].
    rewrite Hr, (H500 Hq). reflexivity.
  - intros msg Hf. unfold emitted, run_handler, stats.
    destruct w as [t ss fs en nw lg]. unfold fault_at in *. simpl in *.
    destruct fs as [|f0 fs]; simpl in *; [discriminate|]. subst f0.
    unfold_handler. tidy_log. rewrite skipn_app_exact. reflexivity.
  - intros msg Hf. unfold emitted, run_handler, stats.
    destruct w as [t ss fs en nw lg]. unfold fault_at in *. simpl in *.
    destruct fs as [|f0 fs]; simpl in *; [discriminate|]. subst f0.
    unfold_handler. tidy_log. rewrite skipn_app_exact. reflexivity.
  - intros Hfav.
    assert (Hne : String.eqb (param_shortCode req) "favicon.ico" = false)
      by (apply String.eqb_neq; exact Hfav).
    split; intros msg Hf; unfold emitted, run_handler, redirect, redirect_handler;
      rewrite Hne;
      destruct w as [t ss fs en nw lg]; unfold fault_at in *; simpl in *;
      (destruct fs as [|f0 fs]; simpl in *; [discriminate|]); subst f0;
      unfold_handler; tidy_log; rewrite skipn_app_exact; reflexivity.
Qed.

Lemma store_failure_responses_witness :
  responses
    (emitted (shorten example_env example_isUri (mk_request None "https://example.com/x" ""))
       (with_faults [Throws "fetch failed"] example_world))
  = [shorten_failure]
  /\ responses
       (emitted (stats example_env (mk_request None "" "uuuuuu"))
          (with_faults [Fails "connection refused"] example_world))
     = [RespJson 404 (ErrorBody "URL not found")].
Proof.
  pose proof (store_failure_responses example_env example_isUri
                (mk_request None "https://example.com/x" "uuuuuu")
                (with_faults [Throws "fetch failed"] example_world)) as [Hs _].
  pose proof (store_failure_responses example_env example_isUri
                (mk_request None "" "uuuuuu")
                (with_faults [Fails "connection refused"] example_world))
    as [_ [_ [_ [H404 _]]]].
  split.
  - apply Hs; [reflexivity | simpl; discriminate].
  - apply (H404 "connection refused"). reflexivity.
Defined.

(** ** Click counts over time *)

Lemma clicks_never_decrease_refl (t : list url_row) : clicks_never_decrease t t.
Proof. intros code n H. exists n. split; [exact H|lia]. Qed.

Lemma clicks_never_decrease_trans (t1 t2 t3 : list url_row) :
  clicks_never_decrease t1 t2 -> clicks_never_decrease t2 t3 ->
  clicks_never_decrease t1 t3.
Proof.
  intros H12 H23 code n H.
  destruct (H12 code n H) as [n2 [H2 Hle2]].
  destruct (H23 code n2 H2) as [n3 [H3 Hle3]].
  exists n3. split; [exact H3|lia].
Qed.

Lemma clicks_never_decrease_app (t : list url_row) (r : url_row) :
  clicks_never_decrease t (t ++ [r]).
Proof.
  intros code n. unfold clicks_of.
  induction t as [|x t IH]; simpl; [discriminate|].
  destruct (has_code code x); simpl; auto.
  intros H. exists n. split; [exact H|lia].
Qed.

Lemma clicks_never_decrease_map (g : url_row -> url_row) (t : list url_row) :
  (forall r, In r t -> short_code (g r) = short_code r /\ clicks r <= clicks (g r)) ->
  clicks_never_decrease t (map g t).
Proof.
  intros Hg code n. unfold clicks_of.
  induction t as [|x t IH]; simpl; [discriminate|].
  destruct (Hg x (or_introl eq_refl)) as [Hcode Hle].
  assert (Hh : has_code code (g x) = has_code code x)
    by (unfold has_code; rewrite Hcode; reflexivity).
  rewrite Hh.
  destruct (has_code code x); simpl.
  - intros H. injection H as <-. eauto.
  - apply IH. intros r Hr. apply Hg. right. exact Hr.
Qed.

Lemma increment_never_decreases (code : string) (w : world) :
  clicks_never_decrease (urls w) (urls (snd (increment_clicks code w))).
Proof.
  unfold increment_clicks.
  destruct (existsb (has_code code) (urls w)); simpl;
    [|apply clicks_never_decrease_refl].
  apply clicks_never_decrease_map. intros r _.
  destruct (has_code code r); simpl; split; auto; lia.
Qed.

Lemma update_never_decreases (code : string) (k : Z) (t : list url_row) :
  (forall r, In r t -> has_code code r = true -> clicks r <= k) ->
  clicks_never_decrease t (update_clicks_table code k t).
Proof.
  intros Hk. apply clicks_never_decrease_map. intros r Hr.
  destruct (has_code code r) eqn:Hc; simpl; split; auto; lia.
Qed.

(** The [increment_clicks] call settles: the table does not lose clicks. *)
Lemma rpc_settled_never_decreases (code : string) (k : Z) (w : world) :
  clicks_never_decrease (urls w) (urls (snd (rpc_settled code k w))).
Proof.
  pose proof (increment_never_decreases code (with_faults (tl (faults w)) w)) as Hinc.
  unfold rpc_settled. unfold_handler.
  destruct (hd Healthy (faults w)); simpl; try apply clicks_never_decrease_refl.
  destruct (increment_clicks code _) as [r w2] eqn:E. simpl in *.
  destruct (error r); simpl; exact Hinc.
Qed.

(** Click accounting run to its end right after a lookup that read [k]. *)
Lemma click_accounting_never_decreases (code : string) (k : Z) (w : world) :
  (forall r, In r (urls w) -> has_code code r = true -> clicks r <= k) ->
  clicks_never_decrease (urls w) (urls (snd (click_accounting code k w))).
Proof.
  intros Hk.
  pose proof (increment_never_decreases code (with_faults (tl (faults w)) w)) as Hinc.
  assert (Hup : clicks_never_decrease (urls w) (update_clicks_table code (k + 1) (urls w))).
  { apply update_never_decreases. intros r Hr Hc. specialize (Hk r Hr Hc). lia. }
  unfold click_accounting, rpc_settled, update_settled, update_clicks. unfold_handler.
  destruct (hd Healthy (faults w)); simpl; try apply clicks_never_decrease_refl.
  - unfold increment_clicks in *. simpl in *.
    destruct (existsb (has_code code) (urls w)); simpl in *; [exact Hinc|].
    destruct (hd Healthy (tl (faults w))); simpl; auto using clicks_never_decrease_refl.
  - destruct (hd Healthy (tl (faults w))); simpl; auto using clicks_never_decrease_refl.
Qed.

Lemma filter_single_in {A} (f : A -> bool) (l : list A) (d r : A) :
  filter f l = [d] -> In r l -> f r = true -> r = d.
Proof.
  intros Hf Hin Hr.
  assert (H : In r (filter f l)) by (apply filter_In; auto).
  rewrite Hf in H. destruct H as [H|[]]. auto.
Qed.

(** The handler's body leaves the table alone, always completes, and the
    clicks it hands to click accounting are those of every row of the
    code at that moment. *)
Lemma redirect_handler_table (req : request) (w : world) :
  urls (snd (redirect_handler req w)) = urls w
  /\ exists job, fst (redirect_handler req w) = Normal job
     /\ forall code k, job = Some (code, k) ->
        forall r, In r (urls w) -> has_code code r = true -> clicks r <= k.
Proof.
  unfold redirect_handler.
  destruct (String.eqb (param_shortCode req) "favicon.ico").
  - simpl. split; [reflexivity|]. exists None. split; [reflexivity|]. discriminate.
  - unfold select_single. unfold_handler.
    destruct (hd Healthy (faults w)); simpl.
    + destruct (filter (has_code (param_shortCode req)) (urls w)) as [|d [|d' l]] eqn:Hd;
        simpl; (split; [reflexivity|]); eexists; (split; [reflexivity|]);
        try discriminate.
      intros code k Hjob r Hr Hc. injection Hjob as <- <-.
      rewrite (filter_single_in _ _ d r Hd Hr Hc). lia.
    + split; [reflexivity|]. eexists. split; [reflexivity|]. discriminate.
    + split; [reflexivity|]. eexists. split; [reflexivity|]. discriminate.
Qed.

Lemma redirect_never_decreases (req : request) (w : world) :
  clicks_never_decrease (urls w) (urls (snd (redirect req w))).
Proof.
  destruct (redirect_handler_table req w) as [Hu [job [Hjob Hk]]].
  unfold redirect, bind.
  destruct (redirect_handler req w) as [c w1]. simpl in *. subst c.
  destruct job as [[code k]|]; simpl.
  - rewrite <- Hu. apply click_accounting_never_decreases.
    rewrite Hu. apply (Hk code k eq_refl).
  - rewrite Hu. apply clicks_never_decrease_refl.
Qed.

Lemma stats_table (env : process_env) (req : request) (w : world) :
  urls (snd (stats env req w)) = urls w.
Proof.
  unfold stats, select_single. unfold_handler.
  destruct (hd Healthy (faults w)); simpl; auto.
  destruct (filter _ (urls w)) as [|d [|d' l]]; reflexivity.
Qed.

Lemma list_urls_table (env : process_env) (req : request) (w : world) :
  urls (snd (list_urls env req w)) = urls w.
Proof.
  unfold list_urls, get_user, select_by_user. unfold_handler.
  destruct (hd Healthy (faults w)); simpl; auto.
  destruct (getSupabase req) as [|token]; simpl; auto.
  destruct (lookup_session token (sessions w)); simpl; auto.
  destruct (hd Healthy (tl (faults w))); reflexivity.
Qed.

Lemma shorten_table (env : process_env) (isUri : string -> bool) (req : request) (w : world) :
  urls (snd (shorten env isUri req w)) = urls w
  \/ exists r, urls (snd (shorten env isUri req w)) = (urls w ++ [r])%list.
Proof.
  destruct (isUri (body_originalUrl req)) eqn:Hvalid.
  - destruct (reaches_insert req w) eqn:Hreach.
    + destruct (shorten_valid_run env isUri req w Hvalid Hreach) as [_ [_ [Hu _]]].
      unfold run_handler in Hu. rewrite Hu.
      destruct (shorten_ok req w); eauto.
    + left. apply (shorten_unreached_insert env isUri req w Hvalid Hreach).
  - left. unfold shorten. rewrite Hvalid. reflexivity.
Qed.

Lemma run_operation_never_decreases
    (env : process_env) (isUri : string -> bool) (op : operation) (w : world) :
  clicks_never_decrease (urls w) (urls (snd (run_operation env isUri op w))).
Proof.
  destruct op as [req|req|req|req]; simpl.
  - destruct (shorten_table env isUri req w) as [-> | [r ->]];
      [apply clicks_never_decrease_refl | apply clicks_never_decrease_app].
  - rewrite stats_table. apply clicks_never_decrease_refl.
  - rewrite list_urls_table. apply clicks_never_decrease_refl.
  - apply redirect_never_decreases.
Qed.

(** C2 does not hold of the code: with three redirects of one code in flight and
    the [increment_clicks] procedure missing, the record's clicks are 2
    once the second and third requests have been served, the first
    request still waits for its direct update, and that update, carrying
    the 0 read by its lookup plus one, takes the counter down to 1. *)
Lemma racing_fallback_lowers_clicks :
  clicks_of "uuuuuu" (urls racing_world) = Some 0
  /\ clicks_of "uuuuuu"
       (urls (snd (run_schedule example_env example_isUri racing_schedule
                     racing_pool racing_world)))
     = Some 2
  /\ nth 0 (fst (run_schedule example_env example_isUri racing_schedule
                   racing_pool racing_world)) None
     = Some (AwaitingUpdate "uuuuuu" 0)
  /\ clicks_of "uuuuuu"
       (urls (snd (step_pool example_env example_isUri 0
                     (fst (run_schedule example_env example_isUri racing_schedule
                             racing_pool racing_world))
                     (snd (run_schedule example_env example_isUri racing_schedule
                             racing_pool racing_world)))))
     = Some 1.
Proof. repeat split; vm_compute; reflexivity. Qed.

Lemma run_operations_cons
    (env : process_env) (isUri : string -> bool) (op : operation)
    (ops : list operation) (w : world) :
  snd (run_operations env isUri (op :: ops) w)
  = snd (run_operations env isUri ops (snd (run_operation env isUri op w))).
Proof.
  simpl. unfold bind, detached.
  destruct (run_operation env isUri op w) as [[a|e] w1]; reflexivity.
Qed.

Lemma run_operations_never_decrease
    (env : process_env) (isUri : string -> bool) (ops : list operation) (w : world) :
  clicks_never_decrease (urls w) (urls (snd (run_operations env isUri ops w))).
Proof.
  revert w. induction ops as [|op ops IH]; intros w.
  - apply clicks_never_decrease_refl.
  - rewrite run_operations_cons.
    eapply clicks_never_decrease_trans; [|apply IH].
    apply run_operation_never_decreases.
Qed.

Lemma step_pool_world
    (env : process_env) (isUri : string -> bool) (i : nat)
    (pool : list (option task)) (w : world) :
  snd (step_pool env isUri i pool w)
  = match nth i pool None with
    | Some t => snd (step_task env isUri t w)
    | None => w
    end.
Proof.
  unfold step_pool, detached.
  destruct (nth i pool None) as [t|]; [|reflexivity].
  destruct (step_task env isUri t w) as [[[next|]|e] w1]; reflexivity.
Qed.

(** C2, as the code has it: when the operations of the core are served
    one after the other, each request's click accounting settled before
    the next request starts, no record ever loses clicks: not from the
    start to the end of the sequence, and not across any single operation
    of it, the direct-update fallback included.  When requests interleave,
    the only step that can lower a counter is one that settles a direct
    update. *)
Theorem clicks_never_decrease_in_sequence :
  forall (env : process_env) (isUri : string -> bool),
    (forall (ops : list operation) (op : operation) (w : world),
       let w1 := run_handler (run_operations env isUri ops) w in
       clicks_never_decrease (urls w) (urls w1)
       /\ clicks_never_decrease (urls w1)
            (urls (run_handler (run_operation env isUri op) w1)))
    /\ (forall (i : nat) (pool : list (option task)) (w : world),
          settles_update (nth i pool None) = false ->
          clicks_never_decrease (urls w) (urls (snd (step_pool env isUri i pool w)))).
Proof.
  intros env isUri. split.
  - intros ops op w w1. subst w1. unfold run_handler. split.
    + apply run_operations_never_decrease.
    + apply run_operation_never_decreases.
  - intros i pool w Hstep. rewrite step_pool_world.
    destruct (nth i pool None) as [[op|c k|c k]|]; simpl in *; try discriminate.
    + destruct op as [req|req|req|req]; unfold bind.
      * pose proof (run_operation_never_decreases env isUri (OpShorten req) w) as H.
        simpl in *. destruct (shorten env isUri req w) as [[a|e] w1]; exact H.
      * pose proof (run_operation_never_decreases env isUri (OpStats req) w) as H.
        simpl in *. destruct (stats env req w) as [[a|e] w1]; exact H.
      * pose proof (run_operation_never_decreases env isUri (OpListUrls req) w) as H.
        simpl in *. destruct (list_urls env req w) as [[a|e] w1]; exact H.
      * destruct (redirect_handler_table req w) as [Hu _].
        destruct (redirect_handler req w) as [[a|e] w1]; simpl in *;
          rewrite Hu; apply clicks_never_decrease_refl.
    + pose proof (rpc_settled_never_decreases c k w) as H.
      unfold bind. destruct (rpc_settled c k w) as [[a|e] w1]; exact H.
    + apply clicks_never_decrease_refl.
Qed.

Lemma clicks_never_decrease_in_sequence_witness :
  clicks_never_decrease (urls racing_world)
    (urls (snd (step_pool example_env example_isUri 0 racing_pool racing_world))).
Proof.
  apply (clicks_never_decrease_in_sequence example_env example_isUri).
  reflexivity.
Defined.

(** ** Example runs *)

Example getSupabase_strips_the_scheme :
  getSupabase (mk_request (Some "Bearer tok") "" "") = ScopedClient "tok"
  /\ getSupabase (mk_request (Some "") "" "") = GlobalClient
  /\ getSupabase (mk_request None "" "") = GlobalClient.
Proof. repeat split. Qed.

Example baseUrl_of_the_environment :
  baseUrl example_env = "http://localhost:3000"
  /\ baseUrl (mk_env (Some "links.example") (Some "8080")) = "https://links.example"
  /\ baseUrl (mk_env (Some "") (Some "8080")) = "http://localhost:8080".
Proof. repeat split. Qed.

(** A URL is shortened, and its code then redirects to it and counts the
    click. *)
Example shorten_then_redirect :
  emitted
    (shorten example_env example_isUri (mk_request None "https://example.com/next" "") ;;
     redirect (mk_request None "" "seando"))
    example_world
  = [Generate "seando";
     InsertUrl GlobalClient "https://example.com/next" "seando" None;
     Respond (RespJson 200
                (Shortened "seando" "http://localhost:3000/seando"
                   "https://example.com/next" "URL shortened successfully"));
     SelectByCode GlobalClient "seando";
     Respond (RespRedirect "https://example.com/next");
     RpcIncrementClicks "seando"]
  /\ clicks_of "seando"
       (urls (run_handler
          (shorten example_env example_isUri (mk_request None "https://example.com/next" "") ;;
           redirect (mk_request None "" "seando"))
          example_world))
     = Some 1.
Proof. split; reflexivity. Qed.

(** A code that was never issued: redirect to the error page, the table
    as it was. *)
Example unknown_code_goes_to_the_error_page :
  redirect (mk_request None "" "nosuch") example_world
  = (Normal tt,
     with_log [SelectByCode GlobalClient "nosuch";
               Respond (RespRedirect "/?error=not_found")] example_world).
Proof. reflexivity. Qed.

Example listing_of_alice :
  map (fun r => map short_code (records_of r))
    (responses (emitted (list_urls example_env (mk_request (Some "Bearer tok") "" ""))
                  listing_world))
  = [["cccccc"; "eeeeee"; "aaaaaa"]].
Proof. reflexivity. Qed.

(** * Further properties of the handlers *)

(** ** Credentials: from the page, through [getSupabase], to the store *)

Lemma substring_all (s : string) : substring 0 (String.length s) s = s.
Proof. induction s as [|c s IH]; simpl; [reflexivity|]. rewrite IH. reflexivity. Qed.

Lemma substring_after_prefix (p s : string) :
  substring (String.length p) (String.length (p ++ s) - String.length p) (p ++ s) = s.
Proof.
  induction p as [|c p IH]; simpl.
  - rewrite Nat.sub_0_r. apply substring_all.
  - exact IH.
Qed.

Lemma prefix_append (p s : string) : prefix p (p ++ s) = true.
Proof.
  induction p as [|c p IH]; simpl; [destruct s; reflexivity|].
  destruct (ascii_dec c c) as [_|N]; [exact IH|contradiction N; reflexivity].
Qed.

Lemma replace_first_unfold (pat rep s : string) :
  replace_first pat rep s
  = if prefix pat s
    then rep ++ substring (String.length pat) (String.length s - String.length pat) s
    else match s with
         | EmptyString => EmptyString
         | String c s' => String c (replace_first pat rep s')
         end.
Proof. destruct s; reflexivity. Qed.

Lemma replace_first_prefix (pat rep s : string) :
  replace_first pat rep (pat ++ s) = rep ++ s.
Proof.
  rewrite replace_first_unfold, prefix_append, substring_after_prefix. reflexivity.
Qed.

Lemma replace_first_absent (pat rep s : string) :
  contains pat s = false -> replace_first pat rep s = s.
Proof.
  induction s as [|c s IH]; simpl; intros H; apply orb_false_elim in H;
    destruct H as [Hp Hc].
  - rewrite Hp. reflexivity.
  - rewrite Hp. rewrite IH by exact Hc. reflexivity.
Qed.

(** X1. The credential of the page reaches the store untouched: for every
    access token, the header the page attaches makes [getSupabase] build
    the client scoped to exactly that token, and the header that client
    sends is the header the page sent.  A page without a session is served
    with the global client. *)
Theorem credential_round_trip :
  forall (access_token body code : string),
    getSupabase (mk_request (page_authorization (Some access_token)) body code)
    = ScopedClient access_token
    /\ client_authorization
         (getSupabase (mk_request (page_authorization (Some access_token)) body code))
       = page_authorization (Some access_token)
    /\ getSupabase (mk_request (page_authorization None) body code) = GlobalClient.
Proof.
  intros access_token body code.
  assert (H : getSupabase (mk_request (page_authorization (Some access_token)) body code)
              = ScopedClient access_token).
  { unfold getSupabase, page_authorization. cbn [header_authorization].
    assert (Ht : truthy (Some ("Bearer " ++ access_token)) = true) by reflexivity.
    assert (Ho : or_else (Some ("Bearer " ++ access_token)) "" = "Bearer " ++ access_token)
      by reflexivity.
    rewrite Ht, Ho, replace_first_prefix. reflexivity. }
  rewrite H. repeat split.
Qed.

(** X2. A non-empty [Authorization] header in which [Bearer ] does not
    occur is taken whole as the token, so the client sends it on with the
    scheme put in front. *)
Theorem bare_token_gets_the_scheme :
  forall (header body code : string),
    header <> "" ->
    contains "Bearer " header = false ->
    getSupabase (mk_request (Some header) body code) = ScopedClient header
    /\ client_authorization (getSupabase (mk_request (Some header) body code))
       = Some ("Bearer " ++ header).
Proof.
  intros header body code Hne Habs.
  assert (H : getSupabase (mk_request (Some header) body code) = ScopedClient header).
  { unfold getSupabase, truthy, or_else. cbn [header_authorization].
    apply String.eqb_neq in Hne. rewrite Hne. cbn [negb].
    rewrite replace_first_absent by exact Habs. reflexivity. }
  rewrite H. split; reflexivity.
Qed.

Lemma bare_token_gets_the_scheme_witness :
  client_authorization (getSupabase (mk_request (Some "bearer tok") "" ""))
  = Some "Bearer bearer tok".
Proof.
  apply (bare_token_gets_the_scheme "bearer tok" "" ""); [discriminate | reflexivity].
Defined.

(** ** The stats endpoint *)

(** The response of [stats] in a world, read off the lookup's outcome. *)
Lemma stats_run (env : process_env) (req : request) (w : world) :
  let code := param_shortCode req in
  stats env req w
  = (Normal tt,
     with_log
       (log w ++
        [SelectByCode (getSupabase req) code;
         Respond
           match fault_at 0 w with
           | Healthy =>
               match filter (has_code code) (urls w) with
               | [d] => RespJson 200 (StatsBody d (baseUrl env ++ "/" ++ short_code d))
               | _ => RespJson 404 (ErrorBody "URL not found")
               end
           | Fails _ => RespJson 404 (ErrorBody "URL not found")
           | Throws _ => RespJson 500 (ErrorBody "Failed to fetch statistics")
           end])
       (with_faults (tl (faults w)) w)).
Proof.
  intros code. subst code. rewrite fault_at_0.
  unfold stats, select_single. unfold_handler.
  destruct (hd Healthy (faults w)); simpl; tidy_log; try reflexivity.
  destruct (filter _ (urls w)) as [|d [|d' l]]; simpl; tidy_log; reflexivity.
Qed.

(** X3. The stats endpoint only reads: in every world, whatever the
    lookup's outcome, it issues the one lookup and one response, no insert,
    no update and no click increment, and leaves the table, the random
    source and the clock as they were. *)
Theorem stats_only_reads :
  forall (env : process_env) (req : request) (w : world),
    fst (stats env req w) = Normal tt
    /\ (exists r, emitted (stats env req) w
                  = [SelectByCode (getSupabase req) (param_shortCode req); Respond r])
    /\ urls (run_handler (stats env req) w) = urls w
    /\ entropy (run_handler (stats env req) w) = entropy w
    /\ now (run_handler (stats env req) w) = now w.
Proof.
  intros env req w. pose proof (stats_run env req w) as H. cbv zeta in H.
  unfold emitted, run_handler. rewrite H. simpl. rewrite skipn_app_exact.
  repeat split. eexists. reflexivity.
Qed.

Lemma has_code_true (code : string) (r : url_row) :
  has_code code r = true -> short_code r = code.
Proof. unfold has_code. apply String.eqb_eq. Qed.

Lemma filter_single_holds {A} (f : A -> bool) (l : list A) (d : A) :
  filter f l = [d] -> f d = true.
Proof.
  intros H. assert (Hin : In d (filter f l)) by (rewrite H; left; reflexivity).
  apply filter_In in Hin. tauto.
Qed.

(** X4. For a code that has exactly one row and a lookup that goes
    through, the stats endpoint answers 200 with that row as stored
    (clicks included) and with the short URL made of the base URL, [/] and
    the requested code. *)
Theorem stats_of_a_known_code :
  forall (env : process_env) (req : request) (w : world) (d : url_row),
    fault_at 0 w = Healthy ->
    filter (has_code (param_shortCode req)) (urls w) = [d] ->
    responses (emitted (stats env req) w)
    = [RespJson 200 (StatsBody d (baseUrl env ++ "/" ++ param_shortCode req))]
    /\ In d (urls w)
    /\ short_code d = param_shortCode req.
Proof.
  intros env req w d Hf Hd.
  pose proof (stats_run env req w) as H. cbv zeta in H.
  unfold emitted, run_handler. rewrite H. simpl. rewrite skipn_app_exact.
  rewrite Hf, Hd. simpl.
  pose proof (filter_single_holds _ _ _ Hd) as Hc. apply has_code_true in Hc.
  rewrite Hc. repeat split.
  assert (Hin : In d (filter (has_code (param_shortCode req)) (urls w)))
    by (rewrite Hd; left; reflexivity).
  apply filter_In in Hin. tauto.
Qed.

Lemma stats_of_a_known_code_witness :
  responses (emitted (stats example_env (mk_request None "" "uuuuuu")) example_world)
  = [RespJson 200 (StatsBody example_row "http://localhost:3000/uuuuuu")].
Proof.
  apply (stats_of_a_known_code example_env (mk_request None "" "uuuuuu")
           example_world example_row); reflexivity.
Defined.

(** ** Codes that have no record *)

Lemma existsb_false_filter {A} (f : A -> bool) (l : list A) :
  existsb f l = false -> filter f l = [].
Proof.
  induction l as [|x l IH]; simpl; [reflexivity|].
  destruct (f x); simpl; [discriminate|exact IH].
Qed.

(** X5. A code that has no row is never served as if it had one.  Unless
    the lookup rejects, the stats endpoint answers 404 and the redirect
    handler (for a code other than [favicon.ico]) redirects to the error
    page [/?error=not_found]; the redirect issues no click accounting and
    leaves no job in flight, and neither endpoint changes the table. *)
Theorem unknown_code_is_not_found :
  forall (env : process_env) (req : request) (w : world),
    existsb (has_code (param_shortCode req)) (urls w) = false ->
    (forall msg, fault_at 0 w <> Throws msg) ->
    responses (emitted (stats env req) w) = [RespJson 404 (ErrorBody "URL not found")]
    /\ urls (run_handler (stats env req) w) = urls w
    /\ (param_shortCode req <> "favicon.ico" ->
        redirect_handler req w
        = (Normal None,
           with_log (log w ++ [SelectByCode GlobalClient (param_shortCode req);
                               Respond (RespRedirect "/?error=not_found")])
             (with_faults (tl (faults w)) w))
        /\ emitted (redirect req) w
           = [SelectByCode GlobalClient (param_shortCode req);
              Respond (RespRedirect "/?error=not_found")]
        /\ urls (run_handler (redirect req) w) = urls w).
Proof.
  intros env req w Hnone Hno.
  apply existsb_false_filter in Hnone.
  pose proof (stats_run env req w) as H. cbv zeta in H.
  split; [|split].
  - unfold emitted, run_handler. rewrite H. simpl. rewrite skipn_app_exact.
    rewrite Hnone. simpl.
    destruct (fault_at 0 w) eqn:Hf; try reflexivity.
    exfalso. apply (Hno msg). reflexivity.
  - unfold run_handler. rewrite H. reflexivity.
  - intros Hfav.
    assert (Hh : redirect_handler req w
        = (Normal None,
           with_log (log w ++ [SelectByCode GlobalClient (param_shortCode req);
                               Respond (RespRedirect "/?error=not_found")])
             (with_faults (tl (faults w)) w))).
    { unfold redirect_handler.
      destruct (String.eqb_spec (param_shortCode req) "favicon.ico") as [E|_];
        [contradiction|].
      unfold select_single. unfold_handler.
      specialize (Hno) as Hno'. rewrite fault_at_0 in Hno'.
      assert (Hf : forall msg, hd Healthy (faults w) <> Throws msg).
      { intros msg. rewrite <- fault_at_0. apply Hno. }
      destruct (hd Healthy (faults w)); simpl.
      - rewrite Hnone. simpl. tidy_log. reflexivity.
      - tidy_log. reflexivity.
      - exfalso. apply (Hf msg). reflexivity. }
    assert (Hr : redirect req w
        = (Normal tt,
           with_log (log w ++ [SelectByCode GlobalClient (param_shortCode req);
                               Respond (RespRedirect "/?error=not_found")])
             (with_faults (tl (faults w)) w))).
    { unfold redirect, bind. rewrite Hh. reflexivity. }
    split; [exact Hh|]. unfold emitted, run_handler. rewrite Hr. simpl.
    rewrite skipn_app_exact. split; reflexivity.
Qed.

Lemma unknown_code_is_not_found_witness :
  responses (emitted (stats example_env (mk_request None "" "nosuch")) example_world)
  = [RespJson 404 (ErrorBody "URL not found")].
Proof.
  apply (unknown_code_is_not_found example_env (mk_request None "" "nosuch") example_world);
    [reflexivity | simpl; discriminate].
Defined.

(** ** One response per request *)

Lemma redirect_responses (req : request) (w : world) :
  fst (redirect req w) = Normal tt
  /\ exists r, responses (emitted (redirect req) w) = [r]
     /\ (r = RespEnd 404 \/ exists location, r = RespRedirect location).
Proof.
  destruct (String.eqb_spec (param_shortCode req) "favicon.ico") as [Hfav|Hfav].
  - assert (Hr : redirect req w = (Normal tt, record_event (Respond (RespEnd 404)) w)).
    { unfold redirect, redirect_handler, bind. rewrite Hfav. reflexivity. }
    unfold emitted, run_handler. rewrite Hr. simpl. rewrite skipn_app_exact.
    split; [reflexivity|]. eexists. split; [reflexivity|]. auto.
  - destruct (fault_at 0 w) eqn:Hf.
    + destruct (filter (has_code (param_shortCode req)) (urls w)) as [|d [|d' l]] eqn:Hd.
      * unfold emitted, run_handler, redirect, redirect_handler, bind.
        apply String.eqb_neq in Hfav. rewrite Hfav. rewrite fault_at_0 in Hf.
        unfold select_single. unfold_handler. rewrite Hf. simpl. rewrite Hd. simpl.
        tidy_log. rewrite skipn_app_exact.
        split; [reflexivity|]. eexists. split; [reflexivity|]. eauto.
      * unfold emitted, run_handler. rewrite (redirect_found req w d Hfav Hf Hd).
        set (w1 := with_log _ _).
        destruct (click_accounting_log (param_shortCode req) (clicks d) w1) as [Hc Hl].
        split; [exact Hc|].
        exists (RespRedirect (original_url d)). split; [|eauto].
        destruct Hl as [-> | ->]; subst w1; simpl; tidy_log;
          rewrite skipn_app_exact; reflexivity.
      * unfold emitted, run_handler, redirect, redirect_handler, bind.
        apply String.eqb_neq in Hfav. rewrite Hfav. rewrite fault_at_0 in Hf.
        unfold select_single. unfold_handler. rewrite Hf. simpl. rewrite Hd. simpl.
        tidy_log. rewrite skipn_app_exact.
        split; [reflexivity|]. eexists. split; [reflexivity|]. eauto.
    + unfold emitted, run_handler, redirect, redirect_handler, bind.
      apply String.eqb_neq in Hfav. rewrite Hfav. rewrite fault_at_0 in Hf.
      unfold_handler. rewrite Hf. simpl.
      tidy_log. rewrite skipn_app_exact.
      split; [reflexivity|]. eexists. split; [reflexivity|]. eauto.
    + unfold emitted, run_handler, redirect, redirect_handler, bind.
      apply String.eqb_neq in Hfav. rewrite Hfav. rewrite fault_at_0 in Hf.
      unfold_handler. rewrite Hf. simpl.
      tidy_log. rewrite skipn_app_exact.
      split; [reflexivity|]. eexists. split; [reflexivity|]. eauto.
Qed.

Lemma shorten_invalid_run
    (env : process_env) (isUri : string -> bool) (req : request) (w : world) :
  isUri (body_originalUrl req) = false ->
  shorten env isUri req w
  = (Normal tt, record_event (Respond (RespJson 400 (ErrorBody "Invalid URL format"))) w).
Proof. intros H. unfold shorten. rewrite H. reflexivity. Qed.

(** The response of [shorten] in any world. *)
Lemma shorten_responses
    (env : process_env) (isUri : string -> bool) (req : request) (w : world) :
  responses (emitted (shorten env isUri req) w)
  = [if isUri (body_originalUrl req)
     then if reaches_insert req w && shorten_ok req w
          then RespJson 200
                 (Shortened (next_code w) (baseUrl env ++ "/" ++ next_code w)
                    (body_originalUrl req) "URL shortened successfully")
          else shorten_failure
     else RespJson 400 (ErrorBody "Invalid URL format")].
Proof.
  destruct (isUri (body_originalUrl req)) eqn:Hvalid.
  - destruct (reaches_insert req w) eqn:Hreach; simpl.
    + destruct (shorten_valid_run env isUri req w Hvalid Hreach) as [_ [Hev _]].
      rewrite Hev.
      destruct (truthy (header_authorization req)), (shorten_ok req w); reflexivity.
    + destruct (shorten_unreached_insert env isUri req w Hvalid Hreach) as [Hev _].
      rewrite Hev. reflexivity.
  - unfold emitted, run_handler. rewrite (shorten_invalid_run env isUri req w Hvalid).
    simpl. rewrite skipn_app_exact. reflexivity.
Qed.

(** X6. Every request gets exactly one response, in every world and
    whatever the network does, unless a call that stands before the
    handler's [try] throws.  [shorten] answers 200, 400 or 500 for every
    body on which [isUri] returns, a string or not, and sends nothing
    when [isUri] throws on a value that is not a string; the stats
    endpoint answers 200, 404 or 500; the redirect handler a 302 redirect
    or the bare 404, never a 5xx and never twice; the listing answers 200
    or 500 as long as its [getUser] call does not reject. *)
Theorem one_response_per_request :
  forall (env : process_env) (isUri : string -> bool) (req : request) (w : world),
    (exists r, responses (emitted (shorten env isUri req) w) = [r]
               /\ In (status_of r) [200; 400; 500])
    /\ (forall authorization field,
          (forall msg, field <> FieldThrows msg) ->
          exists r, responses (emitted (shorten_any env isUri authorization field) w) = [r]
                    /\ In (status_of r) [200; 400; 500])
    /\ (forall authorization msg,
          fst (shorten_any env isUri authorization (FieldThrows msg) w) = Thrown msg
          /\ emitted (shorten_any env isUri authorization (FieldThrows msg)) w = [])
    /\ (exists r, responses (emitted (stats env req) w) = [r]
                  /\ In (status_of r) [200; 404; 500])
    /\ (exists r, responses (emitted (redirect req) w) = [r]
                  /\ In (status_of r) [302; 404])
    /\ ((forall msg, fault_at 0 w <> Throws msg) ->
        exists r, responses (emitted (list_urls env req) w) = [r]
                  /\ In (status_of r) [200; 500]).
Proof.
  intros env isUri req w.
  assert (Hshorten : forall rq,
    exists r, responses (emitted (shorten env isUri rq) w) = [r]
              /\ In (status_of r) [200; 400; 500]).
  { intros rq. rewrite shorten_responses. eexists. split; [reflexivity|].
    destruct (isUri (body_originalUrl rq)); [|simpl; auto].
    destruct (reaches_insert rq w && shorten_ok rq w); simpl; auto. }
  split; [apply Hshorten|]. split; [|split; [|split; [|split]]].
  - intros authorization field Hreturns.
    destruct field as [s0| |msg]; cbn [shorten_any].
    + apply Hshorten.
    + unfold emitted, run_handler, respond, issue, record_event, with_log. simpl.
      rewrite skipn_app_exact. eexists. split; [reflexivity|]. simpl. auto.
    + contradiction (Hreturns msg). reflexivity.
  - intros authorization msg. cbn [shorten_any].
    unfold emitted, run_handler, throw. simpl. split; [reflexivity|].
    apply skipn_all.
  - pose proof (stats_run env req w) as H. cbv zeta in H.
    unfold emitted, run_handler. rewrite H. simpl. rewrite skipn_app_exact. simpl.
    eexists. split; [reflexivity|].
    destruct (fault_at 0 w); simpl; auto.
    destruct (filter _ (urls w)) as [|d [|d' l]]; simpl; auto.
  - destruct (redirect_responses req w) as [_ [r [Hr Hs]]].
    exists r. split; [exact Hr|].
    destruct Hs as [-> | [location ->]]; simpl; auto.
  - intros Hno.
    destruct (whoami (getSupabase req) w) as [uid|] eqn:Hwho.
    + destruct (list_urls_authenticated env req w uid Hwho)
        as [resp [Hr [_ [_ [_ [H200 H500]]]]]].
      exists resp. split; [exact Hr|].
      destruct (fault_at 1 w) eqn:Hf.
      * rewrite (H200 eq_refl). simpl. auto.
      * rewrite H500 by discriminate. simpl. auto.
      * rewrite H500 by discriminate. simpl. auto.
    + pose proof (list_urls_unauthenticated env req w Hno Hwho) as Hrun.
      unfold emitted, run_handler. rewrite Hrun. simpl. rewrite skipn_app_exact.
      eexists. split; [reflexivity|]. simpl. auto.
Qed.

Lemma one_response_per_request_witness :
  (exists r,
     responses (emitted (list_urls example_env (mk_request (Some "Bearer tok") "" ""))
                  listing_world) = [r]
     /\ In (status_of r) [200; 500])
  /\ (exists r,
        responses (emitted (shorten_any example_env example_isUri None FieldNotUri)
                     example_world) = [r]
        /\ In (status_of r) [200; 400; 500]).
Proof.
  destruct (one_response_per_request example_env example_isUri
              (mk_request (Some "Bearer tok") "" "") listing_world)
    as [_ [_ [_ [_ [_ Hlist]]]]].
  destruct (one_response_per_request example_env example_isUri
              (mk_request None "" "") example_world)
    as [_ [Hany _]].
  split.
  - apply Hlist. simpl. discriminate.
  - apply Hany. discriminate.
Defined.

(** X7. When the [getUser] call rejects, the listing sends no response at
    all: the exception leaves the handler, whose [try] starts only after
    the call, and the table is not queried.  The same rejection inside
    [shorten] of an acceptable URL is caught and answered 500. *)
Theorem listing_is_unanswered_when_getUser_rejects :
  forall (env : process_env) (isUri : string -> bool) (req : request) (w : world)
         (msg : string),
    fault_at 0 w = Throws msg ->
    fst (list_urls env req w) = Thrown msg
    /\ emitted (list_urls env req) w = [GetUser (getSupabase req)]
    /\ responses (emitted (list_urls env req) w) = []
    /\ (isUri (body_originalUrl req) = true ->
        truthy (header_authorization req) = true ->
        fst (shorten env isUri req w) = Normal tt
        /\ responses (emitted (shorten env isUri req) w) = [shorten_failure]).
Proof.
  intros env isUri req w msg Hf.
  assert (Hl : list_urls env req w
               = (Thrown msg,
                  with_log (log w ++ [GetUser (getSupabase req)])
                    (with_faults (tl (faults w)) w))).
  { unfold list_urls. rewrite fault_at_0 in Hf. unfold_handler. rewrite Hf. reflexivity. }
  unfold emitted at 1 2, run_handler. rewrite Hl. simpl. rewrite skipn_app_exact.
  split; [reflexivity|]. split; [reflexivity|]. split; [reflexivity|].
  intros Hvalid Hauth. split.
  - unfold shorten, nanoid. rewrite Hvalid. rewrite fault_at_0 in Hf.
    unfold_handler. rewrite Hauth. simpl. rewrite Hf. reflexivity.
  - rewrite shorten_responses, Hvalid.
    assert (Hreach : reaches_insert req w = false).
    { unfold reaches_insert. rewrite Hauth, Hf. reflexivity. }
    rewrite Hreach. reflexivity.
Qed.

Lemma listing_is_unanswered_when_getUser_rejects_witness :
  responses
    (emitted (list_urls example_env (mk_request (Some "Bearer tok") "" ""))
       (with_faults [Throws "fetch failed"] example_world))
  = [].
Proof.
  apply (listing_is_unanswered_when_getUser_rejects example_env example_isUri
           (mk_request (Some "Bearer tok") "" "")
           (with_faults [Throws "fetch failed"] example_world) "fetch failed").
  reflexivity.
Defined.

(** ** Shortening, and reading back what was shortened *)

(** X8. [shorten] stores a row exactly when it answers 200: then the table
    grows by the one row of the request, under a code no earlier row had,
    with zero clicks; in every other case (400 or 500) the table is as it
    was.  Nothing is overwritten either way. *)
Theorem shorten_stores_iff_it_succeeds :
  forall (env : process_env) (isUri : string -> bool) (req : request) (w : world),
    let w' := run_handler (shorten env isUri req) w in
    (responses (emitted (shorten env isUri req) w)
     = [RespJson 200
          (Shortened (next_code w) (baseUrl env ++ "/" ++ next_code w)
             (body_originalUrl req) "URL shortened successfully")]
     /\ existsb (has_code (next_code w)) (urls w) = false
     /\ urls w'
        = (urls w ++ [mk_row (body_originalUrl req) (next_code w) (shorten_user req w)
                        0 (now w)])%list)
    \/ (exists r, responses (emitted (shorten env isUri req) w) = [r]
                  /\ (status_of r = 400 \/ status_of r = 500)
                  /\ urls w' = urls w).
Proof.
  intros env isUri req w w'. subst w'.
  rewrite shorten_responses.
  destruct (isUri (body_originalUrl req)) eqn:Hvalid.
  - destruct (reaches_insert req w) eqn:Hreach; simpl.
    + destruct (shorten_valid_run env isUri req w Hvalid Hreach) as [_ [_ [Hu _]]].
      rewrite Hu.
      destruct (shorten_ok req w) eqn:Hok.
      * left. repeat split.
        unfold shorten_ok in Hok.
        destruct (fault_at (insert_position req) w); try discriminate.
        apply negb_true_iff in Hok. exact Hok.
      * right. eexists. split; [reflexivity|]. simpl. auto.
    + right. eexists. split; [reflexivity|]. simpl. split; [auto|].
      apply (shorten_unreached_insert env isUri req w Hvalid Hreach).
  - right. eexists. split; [reflexivity|]. simpl. split; [auto|].
    unfold run_handler. rewrite (shorten_invalid_run env isUri req w Hvalid).
    reflexivity.
Qed.

(** X9. A credential the auth service does not recognise does not stop
    [shorten]: when the [getUser] call names no user (and does not reject)
    and the insert goes through with a free code, the URL is shortened all
    the same and its row is stored without an owner. *)
Theorem unrecognised_credential_shortens_anonymously :
  forall (env : process_env) (isUri : string -> bool) (req : request) (w : world),
    isUri (body_originalUrl req) = true ->
    truthy (header_authorization req) = true ->
    (forall msg, fault_at 0 w <> Throws msg) ->
    whoami (getSupabase req) w = None ->
    fault_at 1 w = Healthy ->
    existsb (has_code (next_code w)) (urls w) = false ->
    responses (emitted (shorten env isUri req) w)
    = [RespJson 200
         (Shortened (next_code w) (baseUrl env ++ "/" ++ next_code w)
            (body_originalUrl req) "URL shortened successfully")]
    /\ urls (run_handler (shorten env isUri req) w)
       = (urls w ++ [mk_row (body_originalUrl req) (next_code w) None 0 (now w)])%list.
Proof.
  intros env isUri req w Hvalid Hauth Hno Hwho Hins Hfresh.
  assert (Hreach : reaches_insert req w = true).
  { unfold reaches_insert. rewrite Hauth.
    destruct (fault_at 0 w) eqn:Hf; try reflexivity.
    exfalso. apply (Hno msg). reflexivity. }
  assert (Hok : shorten_ok req w = true).
  { unfold shorten_ok, insert_position. rewrite Hauth, Hins, Hfresh. reflexivity. }
  assert (Hu : shorten_user req w = None).
  { unfold shorten_user. rewrite Hauth. exact Hwho. }
  destruct (shorten_valid_run env isUri req w Hvalid Hreach) as [_ [_ [Hurls _]]].
  rewrite shorten_responses, Hvalid, Hreach, Hok. rewrite Hurls, Hok, Hu.
  split; reflexivity.
Qed.

Lemma unrecognised_credential_shortens_anonymously_witness :
  urls (run_handler
          (shorten example_env example_isUri
             (mk_request (Some "Bearer expired") "https://example.com/x" ""))
          example_world)
  = [example_row; mk_row "https://example.com/x" "seando" None 0 10].
Proof.
  apply (unrecognised_credential_shortens_anonymously example_env example_isUri
           (mk_request (Some "Bearer expired") "https://example.com/x" "") example_world);
    solve [reflexivity | simpl; discriminate].
Defined.

Lemma nth_skipn_plus {A} (k n : nat) (l : list A) (d : A) :
  nth n (skipn k l) d = nth (k + n) l d.
Proof.
  revert l. induction k as [|k IH]; intros l; [reflexivity|].
  destruct l as [|x l]; simpl; [destruct n; reflexivity|apply IH].
Qed.

(** The network answers a successful [shorten] has consumed. *)
Lemma shorten_valid_faults
    (env : process_env) (isUri : string -> bool) (req : request) (w : world) :
  isUri (body_originalUrl req) = true ->
  reaches_insert req w = true ->
  faults (run_handler (shorten env isUri req) w)
  = skipn (S (insert_position req)) (faults w).
Proof.
  intros Hvalid Hreach.
  unfold run_handler, shorten, reaches_insert, insert_position, nanoid, getSupabase in *.
  rewrite Hvalid.
  destruct w as [t ss fs en nw lg]. unfold fault_at in *.
  cbn [negb urls faults entropy log now sessions] in *.
  set (code := code_of_bytes (random_bytes 6 en)).
  unfold insert_row, get_user. unfold_handler.
  fold code.
  destruct (truthy (header_authorization req)) eqn:Hauth; simpl.
  - set (token := replace_first _ _ _).
    destruct fs as [|f0 fs]; simpl in *.
    + destruct (lookup_session token ss); simpl;
        destruct (existsb (has_code code) t); reflexivity.
    + destruct f0; simpl in *; try discriminate;
        try (destruct (lookup_session token ss); simpl);
        (destruct fs as [|f1 fs]; simpl; [|destruct f1; simpl]);
        try (destruct (existsb (has_code code) t); simpl); reflexivity.
  - destruct fs as [|f0 fs]; simpl; [|destruct f0; simpl];
      try (destruct (existsb (has_code code) t); simpl); reflexivity.
Qed.

Lemma filter_fresh_row (code : string) (t : list url_row) (r : url_row) :
  existsb (has_code code) t = false ->
  short_code r = code ->
  filter (has_code code) (t ++ [r]) = [r].
Proof.
  intros Hfresh Hr. rewrite filter_app, (existsb_false_filter _ _ Hfresh). simpl.
  unfold has_code. rewrite Hr, String.eqb_refl. reflexivity.
Qed.

Lemma redirect_found_response (req : request) (w : world) (d : url_row) :
  param_shortCode req <> "favicon.ico" ->
  fault_at 0 w = Healthy ->
  filter (has_code (param_shortCode req)) (urls w) = [d] ->
  responses (emitted (redirect req) w) = [RespRedirect (original_url d)].
Proof.
  intros Hfav Hf Hd.
  unfold emitted, run_handler. rewrite (redirect_found req w d Hfav Hf Hd).
  set (w1 := with_log _ _).
  destruct (click_accounting_log (param_shortCode req) (clicks d) w1) as [_ Hl].
  destruct Hl as [-> | ->]; subst w1; simpl; tidy_log;
    rewrite skipn_app_exact; reflexivity.
Qed.

Lemma six_is_not_favicon (code : string) :
  String.length code = 6%nat -> code <> "favicon.ico".
Proof. intros Hlen ->. discriminate. Qed.

(** The world a successful [shorten] leaves, as the next request finds it. *)
Lemma shorten_then_lookup
    (env : process_env) (isUri : string -> bool) (req : request) (w : world) :
  isUri (body_originalUrl req) = true ->
  reaches_insert req w = true ->
  fault_at (insert_position req) w = Healthy ->
  existsb (has_code (next_code w)) (urls w) = false ->
  let w1 := run_handler (shorten env isUri req) w in
  filter (has_code (next_code w)) (urls w1)
  = [mk_row (body_originalUrl req) (next_code w) (shorten_user req w) 0 (now w)]
  /\ fault_at 0 w1 = fault_at (S (insert_position req)) w.
Proof.
  intros Hvalid Hreach Hins Hfresh w1. subst w1.
  destruct (shorten_valid_run env isUri req w Hvalid Hreach) as [_ [_ [Hu _]]].
  assert (Hok : shorten_ok req w = true).
  { unfold shorten_ok. rewrite Hins, Hfresh. reflexivity. }
  rewrite Hok in Hu. rewrite Hu. split.
  - apply filter_fresh_row; [exact Hfresh|reflexivity].
  - unfold fault_at. rewrite (shorten_valid_faults env isUri req w Hvalid Hreach).
    rewrite nth_skipn_plus. f_equal. lia.
Qed.

(** X10. What [shorten] stores, the stats endpoint reads back: after a
    successful [shorten], a stats request for the returned code whose
    lookup goes through answers 200 with the row of the request (its URL,
    the code, the owner [shorten] resolved, zero clicks) and with the same
    short URL that [shorten] returned. *)
Theorem shorten_then_stats :
  forall (env : process_env) (isUri : string -> bool) (req req' : request) (w : world),
    isUri (body_originalUrl req) = true ->
    reaches_insert req w = true ->
    fault_at (insert_position req) w = Healthy ->
    existsb (has_code (next_code w)) (urls w) = false ->
    param_shortCode req' = next_code w ->
    fault_at (S (insert_position req)) w = Healthy ->
    let shortUrl := baseUrl env ++ "/" ++ next_code w in
    responses (emitted (shorten env isUri req) w)
    = [RespJson 200 (Shortened (next_code w) shortUrl (body_originalUrl req)
                       "URL shortened successfully")]
    /\ responses (emitted (stats env req') (run_handler (shorten env isUri req) w))
       = [RespJson 200
            (StatsBody
               (mk_row (body_originalUrl req) (next_code w) (shorten_user req w) 0 (now w))
               shortUrl)].
Proof.
  intros env isUri req req' w Hvalid Hreach Hins Hfresh Hcode Hnext shortUrl.
  subst shortUrl.
  destruct (shorten_then_lookup env isUri req w Hvalid Hreach Hins Hfresh) as [Hrow Hf].
  assert (Hok : shorten_ok req w = true).
  { unfold shorten_ok. rewrite Hins, Hfresh. reflexivity. }
  split.
  - rewrite shorten_responses, Hvalid, Hreach, Hok. reflexivity.
  - set (w1 := run_handler (shorten env isUri req) w) in *.
    pose proof (stats_run env req' w1) as H. cbv zeta in H.
    unfold emitted, run_handler. rewrite H. simpl.
    rewrite skipn_app_exact. rewrite Hf, Hnext, Hcode, Hrow. reflexivity.
Qed.

Lemma shorten_then_stats_witness :
  responses
    (emitted (stats example_env (mk_request None "" "seando"))
       (run_handler
          (shorten example_env example_isUri
             (mk_request (Some "Bearer tok") "https://example.com/x" ""))
          example_world))
  = [RespJson 200
       (StatsBody (mk_row "https://example.com/x" "seando" (Some "alice") 0 10)
          "http://localhost:3000/seando")].
Proof.
  apply (shorten_then_stats example_env example_isUri
           (mk_request (Some "Bearer tok") "https://example.com/x" "")
           (mk_request None "" "seando") example_world); reflexivity.
Defined.

(** X11. What [shorten] stores, the redirect handler resolves: after a
    successful [shorten], a request for the returned code whose lookup
    goes through is redirected to the URL that was shortened, whatever
    becomes of its click accounting. *)
Theorem shorten_then_redirect_resolves :
  forall (env : process_env) (isUri : string -> bool) (req req' : request) (w : world),
    isUri (body_originalUrl req) = true ->
    reaches_insert req w = true ->
    fault_at (insert_position req) w = Healthy ->
    existsb (has_code (next_code w)) (urls w) = false ->
    param_shortCode req' = next_code w ->
    fault_at (S (insert_position req)) w = Healthy ->
    responses (emitted (redirect req') (run_handler (shorten env isUri req) w))
    = [RespRedirect (body_originalUrl req)].
Proof.
  intros env isUri req req' w Hvalid Hreach Hins Hfresh Hcode Hnext.
  destruct (shorten_then_lookup env isUri req w Hvalid Hreach Hins Hfresh) as [Hrow Hf].
  destruct (next_code_shape w) as [Hlen _].
  rewrite <- Hcode in Hrow, Hlen.
  rewrite (redirect_found_response req' _ _ (six_is_not_favicon _ Hlen)
             (eq_trans Hf Hnext) Hrow).
  reflexivity.
Qed.

Lemma shorten_then_redirect_resolves_witness :
  responses
    (emitted (redirect (mk_request None "" "seando"))
       (run_handler
          (shorten example_env example_isUri (mk_request None "https://example.com/x" ""))
          (with_faults [Healthy; Healthy; Fails "timeout"; Fails "timeout"] example_world)))
  = [RespRedirect "https://example.com/x"].
Proof.
  apply (shorten_then_redirect_resolves example_env example_isUri
           (mk_request None "https://example.com/x" "")
           (mk_request None "" "seando")
           (with_faults [Healthy; Healthy; Fails "timeout"; Fails "timeout"] example_world));
    reflexivity.
Defined.

(** ** Counting clicks of requests served one after the other *)

Lemma filter_map_code (code : string) (g : url_row -> url_row) (t : list url_row) :
  (forall r, short_code (g r) = short_code r) ->
  filter (has_code code) (map g t) = map g (filter (has_code code) t).
Proof.
  intros Hg. induction t as [|x t IH]; simpl; [reflexivity|].
  assert (Hh : has_code code (g x) = has_code code x)
    by (unfold has_code; rewrite Hg; reflexivity).
  rewrite Hh. destruct (has_code code x); simpl; rewrite IH; reflexivity.
Qed.

Lemma filter_after_update (code : string) (n : Z) (t : list url_row) (d : url_row) :
  filter (has_code code) t = [d] ->
  filter (has_code code) (update_clicks_table code n t) = [set_clicks n d].
Proof.
  intros Hd. unfold update_clicks_table.
  rewrite filter_map_code by (intros r; destruct (has_code code r); reflexivity).
  rewrite Hd. simpl. rewrite (filter_single_holds _ _ _ Hd). reflexivity.
Qed.

Lemma filter_after_increment (code : string) (w : world) (d : url_row) :
  filter (has_code code) (urls w) = [d] ->
  filter (has_code code) (urls (snd (increment_clicks code w)))
  = [set_clicks (clicks d + 1) d]
  /\ fst (increment_clicks code w) = succeeded tt.
Proof.
  intros Hd. unfold increment_clicks.
  destruct (filter_single_exists _ _ _ Hd) as [Hex _]. rewrite Hex. simpl.
  split; [|reflexivity].
  rewrite filter_map_code by (intros r; destruct (has_code code r); reflexivity).
  rewrite Hd. simpl. rewrite (filter_single_holds _ _ _ Hd). reflexivity.
Qed.

(** One redirect that is served to its end and counted. *)
Lemma counted_redirect_step
    (req : request) (w : world) (d : url_row) (o : option string) (rest : list fault) :
  param_shortCode req <> "favicon.ico" ->
  filter (has_code (param_shortCode req)) (urls w) = [d] ->
  faults w = (counted_redirect o ++ rest)%list ->
  exists evs,
    log (snd (redirect req w)) = (log w ++ evs)%list
    /\ responses evs = [RespRedirect (original_url d)]
    /\ faults (snd (redirect req w)) = rest
    /\ filter (has_code (param_shortCode req)) (urls (snd (redirect req w)))
       = [set_clicks (clicks d + 1) d].
Proof.
  intros Hfav Hd Hfs.
  assert (Hf0 : fault_at 0 w = Healthy).
  { unfold fault_at. rewrite Hfs. destruct o; reflexivity. }
  rewrite (redirect_found req w d Hfav Hf0 Hd).
  set (code := param_shortCode req) in *.
  destruct w as [t ss fs en nw lg]. simpl in *. subst fs.
  unfold click_accounting, rpc_settled, update_settled, update_clicks.
  destruct o as [msg|]; unfold_handler.
  - eexists. split; [tidy_log; reflexivity|]. split; [reflexivity|].
    split; [reflexivity|]. apply filter_after_update. exact Hd.
  - pose proof (filter_after_increment code
        (mk_world t ss (Healthy :: rest) en nw
           (lg ++ [SelectByCode GlobalClient code;
                   Respond (RespRedirect (original_url d));
                   RpcIncrementClicks code])) d Hd) as [Hfil Hok].
    unfold increment_clicks in *. simpl in *.
    destruct (existsb (has_code code) t); simpl in *; [|discriminate].
    eexists. split; [reflexivity|]. split; [reflexivity|].
    split; [reflexivity|]. exact Hfil.
Qed.

Lemma set_clicks_twice (n m : Z) (d : url_row) :
  set_clicks m (set_clicks n d) = set_clicks m d.
Proof. reflexivity. Qed.

Lemma counted_redirects_run
    (env : process_env) (isUri : string -> bool) (req : request)
    (os : list (option string)) (rest : list fault) :
  param_shortCode req <> "favicon.ico" ->
  forall (w : world) (d : url_row),
    filter (has_code (param_shortCode req)) (urls w) = [d] ->
    faults w = (flat_map counted_redirect os ++ rest)%list ->
    let w' := snd (run_operations env isUri
                     (repeat (OpRedirect req) (List.length os)) w) in
    exists evs,
      log w' = (log w ++ evs)%list
      /\ responses evs = repeat (RespRedirect (original_url d)) (List.length os)
      /\ faults w' = rest
      /\ filter (has_code (param_shortCode req)) (urls w')
         = [set_clicks (clicks d + Z.of_nat (List.length os)) d].
Proof.
  intros Hfav. induction os as [|o os IH]; intros w d Hd Hfs w'; subst w'.
  - simpl in *. exists []. rewrite app_nil_r. repeat split; auto.
    rewrite Hd. destruct d; unfold set_clicks; simpl. rewrite Z.add_0_r. reflexivity.
  - cbn [List.length repeat]. rewrite run_operations_cons. cbn [run_operation].
    cbn [flat_map] in Hfs. rewrite <- app_assoc in Hfs.
    destruct (counted_redirect_step req w d o _ Hfav Hd Hfs)
      as [evs1 [Hl1 [Hr1 [Hf1 Hd1]]]].
    destruct (IH (snd (redirect req w)) _ Hd1 Hf1) as [evs2 [Hl2 [Hr2 [Hf2 Hd2]]]].
    exists (evs1 ++ evs2)%list.
    split; [rewrite Hl2, Hl1, app_assoc; reflexivity|].
    split.
    { unfold responses in *. rewrite flat_map_app, Hr1, Hr2. reflexivity. }
    split; [exact Hf2|].
    rewrite Hd2. rewrite set_clicks_twice. simpl clicks.
    f_equal. f_equal. lia.
Qed.

(** X12. Served one after the other, redirects are counted exactly: if
    [n] requests for a code are each served to the end, each counted
    either by the [increment_clicks] call or, when that call fails, by the
    direct update, then all [n] are redirected to the original URL and the
    record's clicks have grown by exactly [n]. *)
Theorem sequential_redirects_count_exactly :
  forall (env : process_env) (isUri : string -> bool) (req : request)
         (os : list (option string)) (rest : list fault) (w : world) (d : url_row),
    param_shortCode req <> "favicon.ico" ->
    filter (has_code (param_shortCode req)) (urls w) = [d] ->
    faults w = (flat_map counted_redirect os ++ rest)%list ->
    let n := List.length os in
    let run := run_operations env isUri (repeat (OpRedirect req) n) in
    responses (emitted run w) = repeat (RespRedirect (original_url d)) n
    /\ clicks_of (param_shortCode req) (urls (run_handler run w))
       = Some (clicks d + Z.of_nat n)
    /\ faults (run_handler run w) = rest.
Proof.
  intros env isUri req os rest w d Hfav Hd Hfs n run. subst n run.
  destruct (counted_redirects_run env isUri req os rest Hfav w d Hd Hfs)
    as [evs [Hl [Hr [Hf Hfil]]]].
  split; [|split].
  - rewrite (emitted_of_log _ _ evs); [exact Hr|exact Hl].
  - unfold run_handler, clicks_of.
    destruct (filter_single_exists _ _ _ Hfil) as [_ Hfind]. rewrite Hfind. reflexivity.
  - exact Hf.
Qed.

Lemma sequential_redirects_count_exactly_witness :
  clicks_of "uuuuuu"
    (urls (run_handler
             (run_operations example_env example_isUri
                (repeat (OpRedirect (mk_request None "" "uuuuuu")) 3))
             (with_faults
                (flat_map counted_redirect [None; Some "function not found"; None])
                example_world)))
  = Some 3.
Proof.
  apply (sequential_redirects_count_exactly example_env example_isUri
           (mk_request None "" "uuuuuu")
           [None; Some "function not found"; None] [] 
           (with_faults
              (flat_map counted_redirect [None; Some "function not found"; None])
              example_world)
           example_row);
    solve [discriminate | reflexivity].
Defined.

(** ** What no request ever changes *)

Lemma table_extends_refl (t : list url_row) : table_extends t t.
Proof. exists []. rewrite app_nil_r. reflexivity. Qed.

Lemma table_extends_trans (t1 t2 t3 : list url_row) :
  table_extends t1 t2 -> table_extends t2 t3 -> table_extends t1 t3.
Proof.
  intros [a1 H1] [a2 H2]. exists (a1 ++ a2)%list.
  rewrite H2, H1, app_assoc. reflexivity.
Qed.

Lemma table_extends_app (t : list url_row) (r : url_row) : table_extends t (t ++ [r]).
Proof. exists [identity_of r]. rewrite map_app. reflexivity. Qed.

Lemma table_extends_map (g : url_row -> url_row) (t : list url_row) :
  (forall r, identity_of (g r) = identity_of r) -> table_extends t (map g t).
Proof.
  intros Hg. exists []. rewrite app_nil_r, map_map.
  apply map_ext. exact Hg.
Qed.

Lemma table_extends_rows (t t' : list url_row) (r : url_row) :
  table_extends t t' -> In r t ->
  exists r', In r' t' /\ identity_of r' = identity_of r.
Proof.
  intros [added H] Hin.
  assert (Hid : In (identity_of r) (map identity_of t')).
  { rewrite H. apply in_or_app. left. apply in_map. exact Hin. }
  apply in_map_iff in Hid. destruct Hid as [r' [Hr' Hin']]. eauto.
Qed.

Lemma step_task_extends
    (env : process_env) (isUri : string -> bool) (t : task) (w : world) :
  table_extends (urls w) (urls (snd (step_task env isUri t w))).
Proof.
  destruct t as [op|c k|c k]; simpl.
  - destruct op as [req|req|req|req]; unfold bind, ret; cbn [run_operation].
    + destruct (shorten_table env isUri req w) as [H | [r H]];
        destruct (shorten env isUri req w) as [[a|e] w1]; simpl in *; rewrite H;
        auto using table_extends_refl, table_extends_app.
    + pose proof (stats_table env req w) as H.
      destruct (stats env req w) as [[a|e] w1]; simpl in *; rewrite H;
        apply table_extends_refl.
    + pose proof (list_urls_table env req w) as H.
      destruct (list_urls env req w) as [[a|e] w1]; simpl in *; rewrite H;
        apply table_extends_refl.
    + destruct (redirect_handler_table req w) as [H _].
      destruct (redirect_handler req w) as [[a|e] w1]; simpl in *; rewrite H;
        apply table_extends_refl.
  - unfold rpc_settled, increment_clicks. unfold_handler.
    destruct (hd Healthy (faults w)); simpl; try apply table_extends_refl.
    destruct (existsb (has_code c) (urls w)); simpl; try apply table_extends_refl.
    apply table_extends_map. intros r. destruct (has_code c r); reflexivity.
  - unfold update_settled, update_clicks, update_clicks_table. unfold_handler.
    destruct (hd Healthy (faults w)); simpl; try apply table_extends_refl.
    apply table_extends_map. intros r. destruct (has_code c r); reflexivity.
Qed.

Lemma run_schedule_extends
    (env : process_env) (isUri : string -> bool) (schedule : list nat)
    (pool : list (option task)) (w : world) :
  table_extends (urls w) (urls (snd (run_schedule env isUri schedule pool w))).
Proof.
  revert pool w. induction schedule as [|i rest IH]; intros pool w; simpl.
  - apply table_extends_refl.
  - pose proof (step_pool_world env isUri i pool w) as Hw.
    destruct (step_pool env isUri i pool w) as [pool' w']. simpl in Hw.
    eapply table_extends_trans; [|apply IH].
    rewrite Hw. destruct (nth i pool None) as [t|];
      [apply step_task_extends | apply table_extends_refl].
Qed.

(** X13. No request deletes a row or rewrites what identifies it: however
    the steps of any requests in flight interleave, every row of the table
    is still there afterwards, in its place, with the same original URL,
    short code, owner and creation time; only its clicks may differ, and
    new rows come after the old ones. *)
Theorem rows_are_never_rewritten :
  forall (env : process_env) (isUri : string -> bool) (schedule : list nat)
         (pool : list (option task)) (w : world),
    let w' := snd (run_schedule env isUri schedule pool w) in
    table_extends (urls w) (urls w')
    /\ (List.length (urls w) <= List.length (urls w'))%nat
    /\ forall r, In r (urls w) ->
         exists r', In r' (urls w')
           /\ original_url r' = original_url r
           /\ short_code r' = short_code r
           /\ user_id r' = user_id r
           /\ created_at r' = created_at r.
Proof.
  intros env isUri schedule pool w w'. subst w'.
  pose proof (run_schedule_extends env isUri schedule pool w) as Hext.
  split; [exact Hext|]. split.
  - destruct Hext as [added H].
    apply (f_equal (@List.length _)) in H.
    rewrite length_app, !length_map in H. lia.
  - intros r Hr.
    destruct (table_extends_rows _ _ r Hext Hr) as [r' [Hin Hid]].
    exists r'. unfold identity_of in Hid. injection Hid as H1 H2 H3 H4. auto.
Qed.

(** ** Clicks are never counted twice *)

Lemma nth_some_in_range {A} (i : nat) (pool : list (option A)) (t : A) :
  nth i pool None = Some t -> (i < List.length pool)%nat /\ In (Some t) pool.
Proof.
  intros H.
  assert (Hlt : (i < List.length pool)%nat).
  { destruct (Nat.lt_ge_cases i (List.length pool)) as [Hlt|Hge]; [exact Hlt|].
    rewrite nth_overflow in H by exact Hge. discriminate. }
  split; [exact Hlt|]. rewrite <- H. apply nth_In. exact Hlt.
Qed.

Lemma in_set_slot (i : nat) (v x : option task) (pool : list (option task)) :
  In x (set_slot i v pool) -> x = v \/ In x pool.
Proof.
  revert i. induction pool as [|y pool IH]; intros [|i]; simpl; try tauto.
  - intros [H|H]; auto.
  - intros [H|H]; auto. destruct (IH i H); auto.
Qed.

Lemma in_flight_set_slot (code : string) (i : nat) (v : option task)
    (pool : list (option task)) :
  (i < List.length pool)%nat ->
  in_flight code (set_slot i v pool)
  = in_flight code pool - flag (concerns code (nth i pool None)) + flag (concerns code v).
Proof.
  unfold in_flight, flag. revert i.
  induction pool as [|y pool IH]; intros i Hi; simpl in Hi; [lia|].
  destruct i as [|i]; cbn [set_slot nth filter].
  - destruct (concerns code y), (concerns code v); cbn [List.length]; lia.
  - specialize (IH i ltac:(lia)).
    destruct (concerns code y); cbn [List.length]; lia.
Qed.

Lemma in_flight_nonneg (code : string) (pool : list (option task)) :
  0 <= in_flight code pool.
Proof. unfold in_flight. lia. Qed.

Lemma step_pool_some
    (env : process_env) (isUri : string -> bool) (i : nat)
    (pool : list (option task)) (w : world) (t : task) :
  nth i pool None = Some t ->
  step_pool env isUri i pool w
  = (set_slot i (slot_after (fst (step_task env isUri t w))) pool,
     snd (step_task env isUri t w)).
Proof.
  intros H. unfold step_pool, detached. rewrite H.
  destruct (step_task env isUri t w) as [[[next|]|e] w1]; reflexivity.
Qed.

(** Replacing the task of a slot keeps the bound, provided the new table
    and the new slot do. *)
Lemma within_bound_step (code : string) (bound : Z) (i : nat) (t : task)
    (v : option task) (pool : list (option task)) (tab tab' : list url_row) :
  nth i pool None = Some t ->
  within_bound code bound pool tab ->
  (concerns code v = true -> concerns code (Some t) = true) ->
  (exists c, clicks_of code tab' = Some c
             /\ c + in_flight code (set_slot i v pool) <= bound) ->
  (forall k, v = Some (AwaitingRpc code k) \/ v = Some (AwaitingUpdate code k) ->
             k + in_flight code (set_slot i v pool) <= bound) ->
  within_bound code bound (set_slot i v pool) tab'.
Proof.
  intros Hnth [_ Hjobs] Hmono Hclicks Hnew.
  destruct (nth_some_in_range i pool t Hnth) as [Hlt _].
  split; [exact Hclicks|].
  intros k Hk.
  assert (Hle : in_flight code (set_slot i v pool) <= in_flight code pool).
  { rewrite in_flight_set_slot by exact Hlt. rewrite Hnth. unfold flag.
    destruct (concerns code v) eqn:Hv; [rewrite (Hmono eq_refl)|];
      destruct (concerns code (Some t)); lia. }
  destruct Hk as [Hk|Hk]; apply in_set_slot in Hk; destruct Hk as [Hk|Hk].
  - apply Hnew. left. symmetry. exact Hk.
  - specialize (Hjobs k (or_introl Hk)). lia.
  - apply Hnew. right. symmetry. exact Hk.
  - specialize (Hjobs k (or_intror Hk)). lia.
Qed.

Lemma find_map_code (code : string) (g : url_row -> url_row) (t : list url_row) :
  (forall r, short_code (g r) = short_code r) ->
  find (has_code code) (map g t) = option_map g (find (has_code code) t).
Proof.
  intros Hg. induction t as [|x t IH]; simpl; [reflexivity|].
  assert (Hh : has_code code (g x) = has_code code x)
    by (unfold has_code; rewrite Hg; reflexivity).
  rewrite Hh. destruct (has_code code x); simpl; auto.
Qed.

Lemma find_has_code (code : string) (t : list url_row) (r : url_row) :
  find (has_code code) t = Some r -> has_code code r = true.
Proof. intros H. apply find_some in H. tauto. Qed.

Lemma has_code_other (c code : string) (r : url_row) :
  c <> code -> has_code code r = true -> has_code c r = false.
Proof.
  unfold has_code. intros Hne Hr. apply String.eqb_eq in Hr.
  apply String.eqb_neq. congruence.
Qed.

(** Setting or bumping the clicks of the rows of [c]: the clicks of
    [code] follow if [c] is [code], and stay otherwise. *)
Lemma clicks_of_rewritten (c code : string) (f : url_row -> Z) (t : list url_row) (n : Z) :
  clicks_of code t = Some n ->
  clicks_of code (map (fun r => if has_code c r then set_clicks (f r) r else r) t)
  = if String.eqb c code
    then option_map f (find (has_code code) t)
    else Some n.
Proof.
  unfold clicks_of. intros Hn.
  rewrite find_map_code by (intros r; destruct (has_code c r); reflexivity).
  destruct (find (has_code code) t) as [r|] eqn:Hfind; [|discriminate].
  simpl in *. pose proof (find_has_code _ _ _ Hfind) as Hr.
  destruct (String.eqb_spec c code) as [->|Hne].
  - rewrite Hr. reflexivity.
  - rewrite (has_code_other c code r Hne Hr). exact Hn.
Qed.

Lemma clicks_of_exists (code : string) (t : list url_row) (n : Z) :
  clicks_of code t = Some n -> existsb (has_code code) t = true.
Proof.
  unfold clicks_of. intros H.
  destruct (find (has_code code) t) as [r|] eqn:Hfind; [|discriminate].
  apply find_some in Hfind. apply existsb_exists. exists r. exact Hfind.
Qed.

Lemma clicks_of_kept_by_app (code : string) (t : list url_row) (r : url_row) (n : Z) :
  clicks_of code t = Some n -> clicks_of code (t ++ [r]) = Some n.
Proof.
  unfold clicks_of. induction t as [|x t IH]; simpl; [discriminate|].
  destruct (has_code code x); simpl; auto.
Qed.

(** The job the handler's body leaves in flight carries the requested code
    and the clicks of its one row. *)
Lemma redirect_handler_job (req : request) (w : world) :
  urls (snd (redirect_handler req w)) = urls w
  /\ exists job, fst (redirect_handler req w) = Normal job
     /\ forall code k, job = Some (code, k) ->
        code = param_shortCode req
        /\ exists d, filter (has_code code) (urls w) = [d] /\ k = clicks d.
Proof.
  unfold redirect_handler.
  destruct (String.eqb (param_shortCode req) "favicon.ico").
  - simpl. split; [reflexivity|]. exists None. split; [reflexivity|]. discriminate.
  - unfold select_single. unfold_handler.
    destruct (hd Healthy (faults w)); simpl.
    + destruct (filter (has_code (param_shortCode req)) (urls w)) as [|d [|d' l]] eqn:Hd;
        simpl; (split; [reflexivity|]); eexists; (split; [reflexivity|]);
        try discriminate.
      intros code k Hjob. injection Hjob as <- <-. eauto.
    + split; [reflexivity|]. eexists. split; [reflexivity|]. discriminate.
    + split; [reflexivity|]. eexists. split; [reflexivity|]. discriminate.
Qed.

Lemma clicks_of_single (code : string) (t : list url_row) (d : url_row) :
  filter (has_code code) t = [d] -> clicks_of code t = Some (clicks d).
Proof.
  intros Hd. destruct (filter_single_exists _ _ _ Hd) as [_ Hfind].
  unfold clicks_of. rewrite Hfind. reflexivity.
Qed.

(** One step of a task keeps the clicks of [code] and the new slot within
    the bound. *)
Lemma task_step_bound
    (env : process_env) (isUri : string -> bool) (code : string) (bound R : Z)
    (t : task) (w : world) (c : Z) :
  clicks_of code (urls w) = Some c ->
  c + R <= bound ->
  (forall k, t = AwaitingRpc code k \/ t = AwaitingUpdate code k -> k + R <= bound) ->
  let v := slot_after (fst (step_task env isUri t w)) in
  let tab' := urls (snd (step_task env isUri t w)) in
  let R' := R - flag (concerns code (Some t)) + flag (concerns code v) in
  (concerns code v = true -> concerns code (Some t) = true)
  /\ (exists c', clicks_of code tab' = Some c' /\ c' + R' <= bound)
  /\ (forall k, v = Some (AwaitingRpc code k) \/ v = Some (AwaitingUpdate code k) ->
                k + R' <= bound).
Proof.
  intros Hc Hle Hjob v tab' R'. subst v tab' R'.
  destruct t as [op|c0 k0|c0 k0].
  - destruct op as [req|req|req|req]; cbn [step_task run_operation]; unfold bind, ret.
    + destruct (shorten_table env isUri req w) as [H | [r H]];
        destruct (shorten env isUri req w) as [[a|e] w1]; simpl in *; rewrite H;
        (split; [discriminate|]); (split; [|intros k [Hk|Hk]; discriminate]);
        exists c; (split; [auto using clicks_of_kept_by_app|lia]).
    + pose proof (stats_table env req w) as H.
      destruct (stats env req w) as [[a|e] w1]; simpl in *; rewrite H;
        (split; [discriminate|]); (split; [|intros k [Hk|Hk]; discriminate]);
        exists c; (split; [assumption|lia]).
    + pose proof (list_urls_table env req w) as H.
      destruct (list_urls env req w) as [[a|e] w1]; simpl in *; rewrite H;
        (split; [discriminate|]); (split; [|intros k [Hk|Hk]; discriminate]);
        exists c; (split; [assumption|lia]).
    + destruct (redirect_handler_job req w) as [Hu [job [Hfst Hj]]].
      destruct (redirect_handler req w) as [cm w1]. simpl in Hu, Hfst. subst cm.
      simpl. rewrite Hu.
      destruct job as [[code' k]|]; simpl.
      * destruct (Hj code' k eq_refl) as [-> [d [Hd ->]]].
        unfold flag.
        split; [auto|]. split.
        { exists c. split; [assumption|].
          destruct (String.eqb (param_shortCode req) code); lia. }
        intros k [Hk|Hk]; [|discriminate]. injection Hk as Hcode Hk.
        rewrite Hcode in Hd. rewrite (clicks_of_single _ _ _ Hd) in Hc.
        injection Hc as Hc. rewrite Hcode, String.eqb_refl. lia.
      * unfold flag. split; [discriminate|]. split; [|intros k [Hk|Hk]; discriminate].
        exists c. split; [assumption|].
        destruct (String.eqb (param_shortCode req) code); lia.
  - cbn [step_task]. unfold rpc_settled, increment_clicks. unfold_handler.
    unfold flag, concerns, task_code.
    destruct (hd Healthy (faults w)); simpl.
    + destruct (existsb (has_code c0) (urls w)) eqn:Hex; simpl.
      * split; [discriminate|]. split; [|intros k [Hk|Hk]; discriminate].
        rewrite (clicks_of_rewritten c0 code (fun r => clicks r + 1) _ c Hc).
        destruct (String.eqb_spec c0 code) as [->|Hne].
        -- unfold clicks_of in Hc.
           destruct (find (has_code code) (urls w)) as [r|]; [|discriminate].
           simpl in *. injection Hc as Hc. exists (clicks r + 1). split; [reflexivity|lia].
        -- exists c. split; [reflexivity|lia].
      * split; [auto|]. split; [exists c; split; [assumption|lia]|].
        intros k [Hk|Hk]; [discriminate|]. injection Hk as -> ->.
        specialize (Hjob k (or_introl eq_refl)). lia.
    + split; [auto|]. split; [exists c; split; [assumption|lia]|].
      intros k [Hk|Hk]; [discriminate|]. injection Hk as -> ->.
      specialize (Hjob k (or_introl eq_refl)). lia.
    + split; [discriminate|]. split; [|intros k [Hk|Hk]; discriminate].
      exists c. split; [assumption|]. destruct (String.eqb c0 code); lia.
  - cbn [step_task]. unfold update_settled, update_clicks, update_clicks_table.
    unfold_handler. unfold flag, concerns, task_code.
    destruct (hd Healthy (faults w)); simpl;
      (split; [discriminate|]); (split; [|intros k [Hk|Hk]; discriminate]).
    + rewrite (clicks_of_rewritten c0 code (fun _ => k0 + 1) _ c Hc).
      destruct (String.eqb_spec c0 code) as [->|Hne].
      * unfold clicks_of in Hc.
        destruct (find (has_code code) (urls w)) as [r|]; [|discriminate].
        simpl. exists (k0 + 1). split; [reflexivity|].
        specialize (Hjob k0 (or_intror eq_refl)). lia.
      * exists c. split; [reflexivity|lia].
    + exists c. split; [assumption|]. destruct (String.eqb c0 code); lia.
    + exists c. split; [assumption|]. destruct (String.eqb c0 code); lia.
Qed.

Lemma step_pool_within_bound
    (env : process_env) (isUri : string -> bool) (code : string) (bound : Z)
    (i : nat) (pool : list (option task)) (w : world) :
  within_bound code bound pool (urls w) ->
  within_bound code bound (fst (step_pool env isUri i pool w))
    (urls (snd (step_pool env isUri i pool w))).
Proof.
  intros Hinv.
  destruct (nth i pool None) as [t|] eqn:Hnth.
  - rewrite (step_pool_some env isUri i pool w t Hnth). cbn [fst snd].
    destruct (nth_some_in_range i pool t Hnth) as [Hlt Hin].
    pose proof Hinv as [[c [Hc Hle]] Hjobs].
    assert (Hjob : forall k, t = AwaitingRpc code k \/ t = AwaitingUpdate code k ->
                             k + in_flight code pool <= bound).
    { intros k [-> | ->]; apply Hjobs; auto. }
    destruct (task_step_bound env isUri code bound (in_flight code pool) t w c Hc Hle Hjob)
      as [Hmono [Hclicks Hnew]].
    apply (within_bound_step code bound i t _ pool (urls w) _ Hnth Hinv Hmono);
      rewrite in_flight_set_slot by exact Hlt; rewrite Hnth; assumption.
  - unfold step_pool. rewrite Hnth. exact Hinv.
Qed.

Lemma run_schedule_within_bound
    (env : process_env) (isUri : string -> bool) (code : string) (bound : Z)
    (schedule : list nat) (pool : list (option task)) (w : world) :
  within_bound code bound pool (urls w) ->
  within_bound code bound (fst (run_schedule env isUri schedule pool w))
    (urls (snd (run_schedule env isUri schedule pool w))).
Proof.
  revert pool w. induction schedule as [|i rest IH]; intros pool w Hinv; simpl.
  - exact Hinv.
  - pose proof (step_pool_within_bound env isUri code bound i pool w Hinv) as Hstep.
    destruct (step_pool env isUri i pool w) as [pool' w']. apply IH. exact Hstep.
Qed.

(** X14. No click is counted twice, however requests interleave: starting
    from a pool of requests none of which has begun, after any schedule
    the clicks of a code plus the number of its redirects still in flight
    are at most its clicks at the start plus the number of its redirects
    in the pool.  So the counter never exceeds the clicks it had plus the
    redirects served. *)
Theorem clicks_are_never_counted_twice :
  forall (env : process_env) (isUri : string -> bool) (schedule : list nat)
         (pool : list (option task)) (w : world) (code : string) (c0 : Z),
    forallb not_started pool = true ->
    clicks_of code (urls w) = Some c0 ->
    let pool' := fst (run_schedule env isUri schedule pool w) in
    let w' := snd (run_schedule env isUri schedule pool w) in
    exists c,
      clicks_of code (urls w') = Some c
      /\ c + in_flight code pool' <= c0 + in_flight code pool
      /\ c <= c0 + in_flight code pool.
Proof.
  intros env isUri schedule pool w code c0 Hnew Hc pool' w'. subst pool' w'.
  assert (Hinv : within_bound code (c0 + in_flight code pool) pool (urls w)).
  { split.
    - exists c0. split; [exact Hc|lia].
    - rewrite forallb_forall in Hnew.
      intros k [Hk|Hk]; apply Hnew in Hk; discriminate. }
  destruct (run_schedule_within_bound env isUri code _ schedule pool w Hinv)
    as [[c [Hc' Hle]] _].
  exists c. split; [exact Hc'|]. split; [exact Hle|].
  pose proof (in_flight_nonneg code (fst (run_schedule env isUri schedule pool w))). lia.
Qed.

Lemma clicks_are_never_counted_twice_witness :
  exists c,
    clicks_of "uuuuuu"
      (urls (snd (run_schedule example_env example_isUri
                    [0; 1; 1; 1; 2; 2; 2; 0; 0]%nat racing_pool racing_world)))
    = Some c
    /\ c + in_flight "uuuuuu"
             (fst (run_schedule example_env example_isUri
                     [0; 1; 1; 1; 2; 2; 2; 0; 0]%nat racing_pool racing_world))
       <= 0 + in_flight "uuuuuu" racing_pool
    /\ c <= 0 + in_flight "uuuuuu" racing_pool.
Proof.
  apply (clicks_are_never_counted_twice example_env example_isUri
           [0; 1; 1; 1; 2; 2; 2; 0; 0]%nat racing_pool racing_world "uuuuuu" 0);
    reflexivity.
Defined.

Lemma rows_are_never_rewritten_witness :
  table_extends (urls racing_world)
    (urls (snd (run_schedule example_env example_isUri racing_schedule
                  racing_pool racing_world))).
Proof.
  apply (rows_are_never_rewritten example_env example_isUri racing_schedule
           racing_pool racing_world).
Defined.

(** ** A code keeps its target *)

Lemma shorten_table_fresh
    (env : process_env) (isUri : string -> bool) (req : request) (w : world) :
  urls (snd (shorten env isUri req w)) = urls w
  \/ exists r, urls (snd (shorten env isUri req w)) = (urls w ++ [r])%list
               /\ existsb (has_code (short_code r)) (urls w) = false.
Proof.
  destruct (isUri (body_originalUrl req)) eqn:Hvalid.
  - destruct (reaches_insert req w) eqn:Hreach.
    + destruct (shorten_valid_run env isUri req w Hvalid Hreach) as [_ [_ [Hu _]]].
      unfold run_handler in Hu. rewrite Hu.
      destruct (shorten_ok req w) eqn:Hok; [|auto].
      right. eexists. split; [reflexivity|]. simpl.
      unfold shorten_ok in Hok.
      destruct (fault_at (insert_position req) w); try discriminate.
      apply negb_true_iff in Hok. exact Hok.
    + left. apply (shorten_unreached_insert env isUri req w Hvalid Hreach).
  - left. rewrite (shorten_invalid_run env isUri req w Hvalid). reflexivity.
Qed.

Lemma filter_kept_by_fresh_row (code : string) (t : list url_row) (r d : url_row) :
  filter (has_code code) t = [d] ->
  existsb (has_code (short_code r)) t = false ->
  filter (has_code code) (t ++ [r]) = [d].
Proof.
  intros Hd Hfresh. rewrite filter_app, Hd. simpl.
  destruct (has_code code r) eqn:Hr; [|reflexivity].
  apply has_code_true in Hr. rewrite Hr in Hfresh.
  destruct (filter_single_exists _ _ _ Hd) as [Hex _]. congruence.
Qed.

Lemma filter_kept_by_rewrite (c code : string) (f : url_row -> Z)
    (t : list url_row) (d : url_row) :
  filter (has_code code) t = [d] ->
  exists d',
    filter (has_code code)
      (map (fun r => if has_code c r then set_clicks (f r) r else r) t) = [d']
    /\ identity_of d' = identity_of d.
Proof.
  intros Hd.
  rewrite filter_map_code by (intros r; destruct (has_code c r); reflexivity).
  rewrite Hd. simpl. eexists. split; [reflexivity|].
  destruct (has_code c d); reflexivity.
Qed.

Lemma step_task_keeps_target
    (env : process_env) (isUri : string -> bool) (code : string)
    (t : task) (w : world) (d : url_row) :
  filter (has_code code) (urls w) = [d] ->
  exists d',
    filter (has_code code) (urls (snd (step_task env isUri t w))) = [d']
    /\ identity_of d' = identity_of d.
Proof.
  intros Hd.
  destruct t as [op|c k|c k].
  - destruct op as [req|req|req|req]; cbn [step_task run_operation]; unfold bind, ret.
    + destruct (shorten_table_fresh env isUri req w) as [H | [r [H Hfresh]]];
        destruct (shorten env isUri req w) as [[a|e] w1]; simpl in *; rewrite H;
        exists d; (split; [|reflexivity]);
        auto using filter_kept_by_fresh_row.
    + pose proof (stats_table env req w) as H.
      destruct (stats env req w) as [[a|e] w1]; simpl in *; rewrite H; eauto.
    + pose proof (list_urls_table env req w) as H.
      destruct (list_urls env req w) as [[a|e] w1]; simpl in *; rewrite H; eauto.
    + destruct (redirect_handler_table req w) as [H _].
      destruct (redirect_handler req w) as [[a|e] w1]; simpl in *; rewrite H; eauto.
  - cbn [step_task]. unfold rpc_settled, increment_clicks. unfold_handler.
    destruct (hd Healthy (faults w)); simpl; eauto.
    destruct (existsb (has_code c) (urls w)); simpl; eauto.
    apply (filter_kept_by_rewrite c code (fun r => clicks r + 1)). exact Hd.
  - cbn [step_task]. unfold update_settled, update_clicks, update_clicks_table.
    unfold_handler.
    destruct (hd Healthy (faults w)); simpl; eauto.
    apply (filter_kept_by_rewrite c code (fun _ => k + 1)). exact Hd.
Qed.

Lemma run_schedule_keeps_target
    (env : process_env) (isUri : string -> bool) (code : string)
    (schedule : list nat) (pool : list (option task)) (w : world) (d : url_row) :
  filter (has_code code) (urls w) = [d] ->
  exists d',
    filter (has_code code) (urls (snd (run_schedule env isUri schedule pool w))) = [d']
    /\ identity_of d' = identity_of d.
Proof.
  revert pool w d. induction schedule as [|i rest IH]; intros pool w d Hd; simpl.
  - eauto.
  - pose proof (step_pool_world env isUri i pool w) as Hw.
    destruct (step_pool env isUri i pool w) as [pool' w']. simpl in Hw. subst w'.
    destruct (nth i pool None) as [t|].
    + destruct (step_task_keeps_target env isUri code t w d Hd) as [d1 [Hd1 Hid1]].
      destruct (IH pool' _ d1 Hd1) as [d2 [Hd2 Hid2]].
      exists d2. split; [exact Hd2|congruence].
    + apply IH. exact Hd.
Qed.

(** X15. A short code keeps its target: if a code resolves to a record,
    then after any interleaving of any requests (shortenings, listings,
    stats, redirects and their click accounting) it still has exactly one
    record, with the same original URL, and a redirect request for it
    whose lookup goes through is redirected to that URL. *)
Theorem a_code_keeps_its_target :
  forall (env : process_env) (isUri : string -> bool) (schedule : list nat)
         (pool : list (option task)) (w : world) (req : request) (d : url_row),
    param_shortCode req <> "favicon.ico" ->
    filter (has_code (param_shortCode req)) (urls w) = [d] ->
    let w' := snd (run_schedule env isUri schedule pool w) in
    (exists d', filter (has_code (param_shortCode req)) (urls w') = [d']
                /\ original_url d' = original_url d
                /\ created_at d' = created_at d
                /\ user_id d' = user_id d)
    /\ (fault_at 0 w' = Healthy ->
        responses (emitted (redirect req) w') = [RespRedirect (original_url d)]).
Proof.
  intros env isUri schedule pool w req d Hfav Hd w'. subst w'.
  destruct (run_schedule_keeps_target env isUri (param_shortCode req)
              schedule pool w d Hd) as [d' [Hd' Hid]].
  unfold identity_of in Hid. injection Hid as Hurl Hcode Huser Htime.
  split.
  - exists d'. auto.
  - intros Hf. rewrite (redirect_found_response req _ d' Hfav Hf Hd'). congruence.
Qed.

Lemma a_code_keeps_its_target_witness :
  responses
    (emitted (redirect (mk_request None "" "uuuuuu"))
       (snd (run_schedule example_env example_isUri [0; 1; 1; 1; 2; 2; 2; 0; 0]%nat
               racing_pool racing_world)))
  = [RespRedirect "https://example.com/very/long/path"].
Proof.
  apply (a_code_keeps_its_target example_env example_isUri
           [0; 1; 1; 1; 2; 2; 2; 0; 0]%nat racing_pool racing_world
           (mk_request None "" "uuuuuu") example_row);
    solve [discriminate | reflexivity].
Defined.

(** ** What the cap of the listing leaves out *)

Lemma insert_desc_length (r : url_row) (l : list url_row) :
  List.length (insert_desc r l) = S (List.length l).
Proof.
  induction l as [|x l IH]; simpl; [reflexivity|].
  destruct (created_at x <? created_at r); simpl; [reflexivity|].
  rewrite IH. reflexivity.
Qed.

Lemma order_desc_length (l : list url_row) :
  List.length (order_desc l) = List.length l.
Proof.
  induction l as [|x l IH]; simpl; [reflexivity|].
  rewrite insert_desc_length, IH. reflexivity.
Qed.

Lemma strongly_sorted_across {A} (R : A -> A -> Prop) (l1 l2 : list A) :
  StronglySorted R (l1 ++ l2) ->
  forall x y, In x l1 -> In y l2 -> R x y.
Proof.
  induction l1 as [|a l1 IH]; simpl; intros Hs x y Hx Hy; [contradiction|].
  inversion Hs as [|? ? Hs' Hall]; subst.
  destruct Hx as [<-|Hx].
  - rewrite Forall_forall in Hall. apply Hall. apply in_or_app. right. exact Hy.
  - apply (IH Hs' x y Hx Hy).
Qed.

Lemma page_of_complete (uid : string) (t : list url_row) :
  List.length (page_of uid t) = Nat.min 50 (List.length (filter (owned_by uid) t))
  /\ ((List.length (filter (owned_by uid) t) <= 50)%nat ->
      forall r, In r t -> owned_by uid r = true -> In r (page_of uid t))
  /\ (forall x r, In x (page_of uid t) -> In r t -> owned_by uid r = true ->
                  ~ In r (page_of uid t) -> created_at r <= created_at x).
Proof.
  unfold page_of. set (l := order_desc (filter (owned_by uid) t)).
  assert (Hlen : List.length l = List.length (filter (owned_by uid) t))
    by apply order_desc_length.
  assert (Hin : forall r, In r t -> owned_by uid r = true -> In r l).
  { intros r Hr Ho. apply order_desc_in, filter_In. auto. }
  split; [rewrite length_firstn, Hlen; reflexivity|]. split.
  - intros Hle r Hr Ho. rewrite firstn_all2 by lia. auto.
  - intros x r Hx Hr Ho Hout.
    specialize (Hin r Hr Ho). rewrite <- (firstn_skipn 50 l) in Hin.
    apply in_app_or in Hin. destruct Hin as [Hin|Hin]; [contradiction|].
    assert (Hs : StronglySorted newest_first (firstn 50 l ++ skipn 50 l)).
    { rewrite firstn_skipn. apply Sorted_StronglySorted;
        [exact newest_first_trans | apply order_desc_sorted]. }
    apply (strongly_sorted_across newest_first _ _ Hs x r Hx Hin).
Qed.

(** X16. The cap of the listing drops only the oldest: for a caller the
    auth service names and a query that goes through, the listing holds
    as many rows as the caller owns, up to 50; with at most 50 rows owned
    every one of them is listed; and a row of the caller that is left out
    is never newer than a row that is listed. *)
Theorem listing_cap_drops_the_oldest :
  forall (env : process_env) (req : request) (w : world) (uid : string),
    whoami (getSupabase req) w = Some uid ->
    fault_at 1 w = Healthy ->
    let owned := filter (owned_by uid) (urls w) in
    exists resp,
      responses (emitted (list_urls env req) w) = [resp]
      /\ status_of resp = 200
      /\ List.length (records_of resp) = Nat.min 50 (List.length owned)
      /\ ((List.length owned <= 50)%nat ->
          forall r, In r (urls w) -> owned_by uid r = true -> In r (records_of resp))
      /\ (forall x r, In x (records_of resp) -> In r (urls w) -> owned_by uid r = true ->
                      ~ In r (records_of resp) -> created_at r <= created_at x).
Proof.
  intros env req w uid Hwho Hq owned. subst owned.
  destruct (list_urls_authenticated env req w uid Hwho)
    as [resp [Hr [_ [_ [_ [H200 _]]]]]].
  exists resp. split; [exact Hr|]. rewrite (H200 Hq). simpl.
  rewrite map_map. simpl. rewrite map_id.
  split; [reflexivity|]. apply page_of_complete.
Qed.

Lemma listing_cap_drops_the_oldest_witness :
  exists resp,
    responses (emitted (list_urls example_env (mk_request (Some "Bearer tok") "" ""))
                 listing_world) = [resp]
    /\ status_of resp = 200
    /\ List.length (records_of resp) = 3%nat.
Proof.
  destruct (listing_cap_drops_the_oldest example_env
              (mk_request (Some "Bearer tok") "" "") listing_world "alice"
              eq_refl eq_refl) as [resp [Hr [Hs [Hl _]]]].
  exists resp. auto.
Defined.

(** ** The rate limiter's options *)

(** X17. The limiter goes by the header alone.  A request with a non-empty
    [Authorization] header is allowed 500 requests per window and is
    counted under that header, whatever its address; without one it is
    allowed 50 and counted under its address.  The header is not
    checked: a request whose credential the auth service does not
    recognise still has the limit of 500 and a bucket of its own, while
    the listing answers it with the empty list of an unauthenticated
    caller. *)
Theorem limiter_goes_by_the_header :
  forall (env : process_env) (req : request) (ip ip' : string) (w : world),
    (truthy (header_authorization req) = true ->
     limiter_max req = 500
     /\ limiter_keyGenerator req ip = limiter_keyGenerator req ip'
     /\ Some (limiter_keyGenerator req ip) = header_authorization req
     /\ ((forall msg, fault_at 0 w <> Throws msg) ->
         whoami (getSupabase req) w = None ->
         responses (emitted (list_urls env req) w) = [RespJson 200 (UrlList [])]))
    /\ (truthy (header_authorization req) = false ->
        limiter_max req = 50
        /\ limiter_keyGenerator req ip = ip
        /\ getSupabase req = GlobalClient).
Proof.
  intros env req ip ip' w.
  unfold limiter_max, limiter_keyGenerator. split; intros Hauth; rewrite Hauth.
  - split; [reflexivity|]. split; [reflexivity|]. split.
    + unfold truthy, or_else in *.
      destruct (header_authorization req) as [h|]; [|discriminate].
      destruct (String.eqb h ""); [discriminate|reflexivity].
    + intros Hno Hwho.
      pose proof (list_urls_unauthenticated env req w Hno Hwho) as Hrun.
      unfold emitted, run_handler. rewrite Hrun. simpl. rewrite skipn_app_exact.
      reflexivity.
  - unfold getSupabase. rewrite Hauth. repeat split.
Qed.

Lemma limiter_goes_by_the_header_witness :
  limiter_max (mk_request (Some "Bearer expired") "" "") = 500
  /\ responses (emitted (list_urls example_env (mk_request (Some "Bearer expired") "" ""))
                  example_world)
     = [RespJson 200 (UrlList [])].
Proof.
  destruct (limiter_goes_by_the_header example_env
              (mk_request (Some "Bearer expired") "" "") "10.0.0.1" "10.0.0.2"
              example_world) as [H _].
  destruct (H eq_refl) as [Hmax [_ [_ Hlist]]].
  split; [exact Hmax|]. apply Hlist; [simpl; discriminate|reflexivity].
Defined.
